(** * ipyparaview notebooks: a shallow embedding of the notebook code

    The repository consists of two Jupyter notebooks
    ([Iso-Surfaces_with_RTX.ipynb] and the "ParaView Test" notebook) that
    configure a ParaView pipeline.  The Python written in the cells is
    embedded below:

    - Python [str] values are lists of characters ([list ascii]); the
      embedding covers the code points below U+0100;
    - Python [int] is [Z]; Python [float] is modelled by the real numbers
      [R] (exact arithmetic, exact [sin], [cos] and [pi]); the angles a
      light callback receives are floats with their infinities, NaN and the
      overflow of [pi * angle], on which [math.sin] and [math.cos] raise;
    - exceptions are an explicit [result] type;
    - the ParaView proxies the cells configure are an explicit store of
      properties, threaded through a small state-and-error monad that also
      records the calls made on the external library. *)

From Stdlib Require Import ZArith List Ascii String Reals Lra Lia Bool.
From stdpp Require Import gmap strings.

Import ListNotations.
Local Open Scope Z_scope.

(** ** Exceptions and results *)

Inductive exn : Type :=
  | ValueError
  | IndexError
  | ZeroDivisionError.

Inductive result (A : Type) : Type :=
  | Ok (a : A)
  | Raise (e : exn).

Arguments Ok {A} a.
Arguments Raise {A} e.

Definition rbind {A B : Type} (r : result A) (k : A -> result B) : result B :=
  match r with
  | Ok a => k a
  | Raise e => Raise e
  end.

(** [list(f(i) for i in xs)]: the elements are computed from left to right
    and the first exception ends the evaluation. *)
Fixpoint list_gen {A B : Type} (f : A -> result B) (xs : list A) : result (list B) :=
  match xs with
  | [] => Ok []
  | x :: xs' =>
      rbind (f x) (fun y => rbind (list_gen f xs') (fun ys => Ok (y :: ys)))
  end.

(** ** Python strings *)

Module PyStr.

Definition pystr : Type := list ascii.

Definition lit (s : string) : pystr := list_ascii_of_string s.

Definition code (c : ascii) : Z := Z.of_N (N_of_ascii c).

Definition is_char (k : Z) (c : ascii) : bool := code c =? k.

Fixpoint skip (p : ascii -> bool) (s : pystr) : pystr :=
  match s with
  | c :: r => if p c then skip p r else s
  | [] => []
  end.

Definition mem (chars : pystr) (c : ascii) : bool :=
  existsb (fun d => code d =? code c) chars.

(** [s.strip(chars)]: drop the characters of [chars] from both ends. *)
Definition lstrip (chars s : pystr) : pystr := skip (mem chars) s.
Definition rstrip (chars s : pystr) : pystr := rev (skip (mem chars) (rev s)).
Definition strip (chars s : pystr) : pystr := rstrip chars (lstrip chars s).

(** [s[i:j]] for [0 <= i <= j]; a slice is clipped to the string. *)
Definition slice (i j : nat) (s : pystr) : pystr := firstn (j - i) (skipn i s).

(** White space as [int] sees it: the ASCII blanks tab, LF, VT, FF, CR and
    space, and the two Unicode blanks below U+0100 (NEL and NBSP), which the
    conversion to ASCII done before parsing turns into a space. *)
Definition isspace (c : ascii) : bool :=
  let n := code c in
  ((9 <=? n) && (n <=? 13)) || (n =? 32) || (n =? 133) || (n =? 160).

(** The digit table of [int]: [0-9] are 0..9, letters of either case are
    10..35, everything else is not a digit. *)
Definition digit_value (c : ascii) : option Z :=
  let n := code c in
  if (48 <=? n) && (n <=? 57) then Some (n - 48)
  else if (97 <=? n) && (n <=? 122) then Some (n - 87)
  else if (65 <=? n) && (n <=? 90) then Some (n - 55)
  else None.

(** The digit loop of [int(s, base)]: digits below [base] are accumulated,
    single underscores between digits are skipped, two underscores in a
    row or an underscore at the end are an error.  It returns the value and
    the unread rest of the string. *)
Fixpoint scan (base : Z) (prev_us : bool) (acc : Z) (s : pystr)
  : result (Z * pystr) :=
  let stop := if prev_us then Raise ValueError else Ok (acc, s) in
  match s with
  | c :: r =>
      if is_char 95 c then
        if prev_us then Raise ValueError else scan base true acc r
      else
        match digit_value c with
        | Some d => if d <? base then scan base false (acc * base + d) r else stop
        | None => stop
        end
  | [] => stop
  end.

(** [int(s, 16)] on a string: blanks, an optional sign, an optional [0x] or
    [0X] prefix (after which one underscore is allowed), at least one digit,
    blanks; anything else raises [ValueError]. *)
Definition int16 (s : pystr) : result Z :=
  let s1 := skip isspace s in
  let '(sign, s2) :=
    match s1 with
    | c :: r => if is_char 43 c then (1, r)
                else if is_char 45 c then (-1, r) else (1, s1)
    | [] => (1, s1)
    end in
  let s3 :=
    match s2 with
    | z :: x :: r =>
        if is_char 48 z && (is_char 120 x || is_char 88 x) then
          match r with
          | u :: r' => if is_char 95 u then r' else r
          | [] => r
          end
        else s2
    | _ => s2
    end in
  match s3 with
  | [] => Raise ValueError
  | c :: _ =>
      if is_char 95 c then Raise ValueError
      else
        rbind (scan 16 false 0 s3) (fun '(v, rest) =>
          if (length rest =? length s3)%nat then Raise ValueError
          else
            match skip isspace rest with
            | [] => Ok (sign * v)
            | _ :: _ => Raise ValueError
            end)
  end.

End PyStr.

Import PyStr.

(** ** Values, proxies and the notebook monad *)

(** Handles of the objects of the external library (ParaView proxies and
    VTK objects).  A Python variable bound to such an object holds its
    handle, so two variables bound to the same object alias. *)
Definition oid : Type := positive.

#[local] Set Warnings "-register-all".

Inductive pyval : Type :=
  | VNone
  | VBool (b : bool)
  | VInt (n : Z)
  | VFloat (x : R)
  | VInf (neg : bool)
  | VNaN
  | VStr (s : string)
  | VList (l : list pyval)
  | VRef (o : oid).

(** What a cell does to the external library, in program order. *)
Inductive event : Type :=
  | Create (o : oid) (ctor : string) (args : list pyval) (kwargs : list (string * pyval))
  | SetAttr (o : oid) (prop : string) (v : pyval)
  | Call (o : oid) (meth : string) (args : list pyval)
  | CallFn (fn : string) (args : list pyval).

(** The configuration state: the current value of every property that was
    assigned on every object, and the next free handle. *)
Record World : Type := mkWorld {
  props : gmap (oid * string) pyval;
  next : oid
}.

Definition Py (A : Type) : Type := World -> World * list event * result A.

Definition ret {A : Type} (a : A) : Py A := fun w => (w, [], Ok a).

Definition bind {A B : Type} (m : Py A) (k : A -> Py B) : Py B :=
  fun w =>
    match m w with
    | (w1, ev1, Ok a) =>
        match k a w1 with
        | (w2, ev2, r) => (w2, ev1 ++ ev2, r)
        end
    | (w1, ev1, Raise e) => (w1, ev1, Raise e)
    end.

Declare Scope py_scope.
Delimit Scope py_scope with py.
Notation "x <- m ;; k" := (bind m (fun x => k))
  (at level 100, m at next level, right associativity) : py_scope.
Notation "m ;; k" := (bind m (fun _ => k))
  (at level 100, right associativity) : py_scope.

(** An expression that may raise, evaluated inside a cell. *)
Definition lift {A : Type} (r : result A) : Py A := fun w => (w, [], r).

(** [o.prop = v] *)
Definition setattr (o : oid) (prop : string) (v : pyval) : Py unit :=
  fun w => (mkWorld (<[(o, prop) := v]> (props w)) (next w),
            [SetAttr o prop v], Ok tt).

(** [o.meth(args)], for the methods whose result the cells drop. *)
Definition call (o : oid) (meth : string) (args : list pyval) : Py unit :=
  fun w => (w, [Call o meth args], Ok tt).

(** [fn(args)] for a function of the library that returns nothing. *)
Definition callfn (fn : string) (args : list pyval) : Py unit :=
  fun w => (w, [CallFn fn args], Ok tt).

(** [ctor(args, kwargs)] for a function of the library that returns a new
    object: the next free handle. *)
Definition create (ctor : string) (args : list pyval) (kwargs : list (string * pyval)) : Py oid :=
  fun w => (mkWorld (props w) (Pos.succ (next w)),
            [Create (next w) ctor args kwargs], Ok (next w)).

Definition world_of {A : Type} (x : World * list event * result A) : World := fst (fst x).
Definition events_of {A : Type} (x : World * list event * result A) : list event := snd (fst x).
Definition result_of {A : Type} (x : World * list event * result A) : result A := snd x.

(** ** The utility functions of the lighting cell *)

Section Utilities.
Local Open Scope R_scope.

(** [sphereToCart(t, p)], interpreted over the reals; what the interpreter
    does with it on floats is [sphereToCart_float] below. *)
Definition sphereToCart (t p : R) : list R :=
  let t' := PI * t / 180 in
  let p' := PI * p / 180 in
  [sin p' * cos t'; sin t'; cos p' * cos t'].

(** [hexToRGB(h)] *)
Definition hexToRGB (h : pystr) : result (list R) :=
  list_gen (fun i : nat =>
              rbind (int16 (slice i (i + 2) (strip (lit "#") h)))
                    (fun n => Ok (IZR n / 255)))
           [0; 2; 4]%nat.

End Utilities.

Definition floats (l : list R) : pyval := VList (map VFloat l).

(** ** [sphereToCart] on Python floats

    A float argument is a finite number, an infinity or a NaN.  Finite
    values are kept exact; what the doubles add is the edge of their range:
    [pi * t] is an infinity once the product leaves the double range, and
    [math.sin] and [math.cos] raise [ValueError] on an infinity. *)

Inductive pyfloat : Type :=
  | Fin (x : R)
  | Inf (neg : bool)
  | NaN.

Definition float_val (a : pyfloat) : pyval :=
  match a with
  | Fin x => VFloat x
  | Inf neg => VInf neg
  | NaN => VNaN
  end.

Section FloatEdge.
Local Open Scope R_scope.

(** A product of doubles is rounded to an infinity from [2^1024 - 2^970]
    on (half a unit in the last place above the largest double). *)
Definition float_limit : R := IZR (2 ^ 1024 - 2 ^ 970).

(** [math.pi], the double nearest to pi. *)
Definition pi_double : R := IZR 884279719003555 / IZR (2 ^ 48).

Definition overflows (x : R) : bool :=
  if Rle_dec float_limit (Rabs x) then true else false.

Definition negative (x : R) : bool :=
  if Rlt_dec x 0 then true else false.

(** [pi * t]: whether the product overflows is decided on the doubles'
    own factors; the value kept for a product in range is exact. *)
Definition mul_pi (t : pyfloat) : pyfloat :=
  match t with
  | Fin x => if overflows (pi_double * x) then Inf (negative x) else Fin (PI * x)
  | Inf neg => Inf neg
  | NaN => NaN
  end.

(** [a / 180.0] *)
Definition div_180 (a : pyfloat) : pyfloat :=
  match a with
  | Fin x => Fin (x / 180)
  | Inf neg => Inf neg
  | NaN => NaN
  end.

(** [math.sin(a)] and [math.cos(a)] *)
Definition py_sin (a : pyfloat) : result pyfloat :=
  match a with
  | Fin x => Ok (Fin (sin x))
  | Inf _ => Raise ValueError
  | NaN => Ok NaN
  end.

Definition py_cos (a : pyfloat) : result pyfloat :=
  match a with
  | Fin x => Ok (Fin (cos x))
  | Inf _ => Raise ValueError
  | NaN => Ok NaN
  end.

(** [a * b] on floats: a NaN factor gives a NaN, an infinity times zero
    too, and the signs multiply. *)
Definition fmul (a b : pyfloat) : pyfloat :=
  match a, b with
  | NaN, _ | _, NaN => NaN
  | Fin x, Fin y =>
      if overflows (x * y) then Inf (negative (x * y)) else Fin (x * y)
  | Inf neg, Fin y | Fin y, Inf neg =>
      if Req_dec_T y 0 then NaN else Inf (xorb neg (negative y))
  | Inf n1, Inf n2 => Inf (xorb n1 n2)
  end.

(** [sphereToCart(t, p)] as the interpreter runs it on floats. *)
Definition sphereToCart_float (t p : pyfloat) : result (list pyfloat) :=
  let t' := div_180 (mul_pi t) in
  let p' := div_180 (mul_pi p) in
  rbind (py_sin p') (fun sp =>
  rbind (py_cos t') (fun ct =>
  rbind (py_sin t') (fun st =>
  rbind (py_cos p') (fun cp =>
  rbind (py_cos t') (fun ct' =>
  Ok [fmul sp ct; st; fmul cp ct']))))).

End FloatEdge.

Local Open Scope py_scope.

(** ** The callbacks *)

Section Callbacks.

(** The global [contour] the callback [iso] refers to. *)
Variable contour : oid.

(** [iso(isoval)] *)
Definition iso (isoval : pyval) : Py pyval :=
  setattr contour "Isosurfaces" (VList [isoval]) ;;
  call contour "UpdatePipeline" [] ;;
  ret VNone.

End Callbacks.

(** [setDirLight(light, theta, phi, col, lum)] *)
Definition setDirLight (light : oid) (theta phi : pyfloat) (col : pystr)
    (lum : pyval) : Py pyval :=
  pos <- lift (sphereToCart_float theta phi) ;;
  setattr light "Position" (VList (map float_val pos)) ;;
  rgb <- lift (hexToRGB col) ;;
  setattr light "DiffuseColor" (floats rgb) ;;
  setattr light "Intensity" lum ;;
  ret VNone.

(** [setPtLight(light, x, y, z, col, lum)] *)
Definition setPtLight (light : oid) (x y z : pyval) (col : pystr) (lum : pyval) : Py pyval :=
  setattr light "Position" (VList [x; y; z]) ;;
  rgb <- lift (hexToRGB col) ;;
  setattr light "DiffuseColor" (floats rgb) ;;
  setattr light "Intensity" lum ;;
  ret VNone.

(** * The cells *)

(** ** First notebook, first cell: the VTK image of the CT volume *)

Definition ints (l : list Z) : pyval := VList (map VInt l).

(** [l[i]] for a literal index [i >= 0]. *)
Definition getitem (l : list Z) (i : nat) : result Z :=
  match l !! i with
  | Some x => Ok x
  | None => Raise IndexError
  end.

(** [x / d] for a float [x] and an int [d]. *)
Definition float_div (x : R) (d : Z) : result R :=
  if d =? 0 then Raise ZeroDivisionError else Ok (x / IZR d)%R.

Definition voldims : list Z := [256; 256; 113].

(** [[0,voldims[0]-1, 0,voldims[1]-1, 0,voldims[2]-1]] *)
Definition extent_arg : result (list Z) :=
  rbind (getitem voldims 0) (fun d0 =>
  rbind (getitem voldims 1) (fun d1 =>
  rbind (getitem voldims 2) (fun d2 =>
  Ok [0; d0 - 1; 0; d1 - 1; 0; d2 - 1]))).

(** [[1.0/voldims[0],1.0/voldims[1],1.0/voldims[2]]] *)
Definition spacing_arg : result (list R) :=
  rbind (rbind (getitem voldims 0) (float_div 1)) (fun s0 =>
  rbind (rbind (getitem voldims 1) (float_div 1)) (fun s1 =>
  rbind (rbind (getitem voldims 2) (float_div 1)) (fun s2 =>
  Ok [s0; s1; s2]))).

(** [[-0.5,-0.5,-0.5]] *)
Definition origin_arg : list R := [-0.5; -0.5; -0.5]%R.

(** Lines [vtkimg = vtk.vtkImageData()] to [vtkimg.SetOrigin(...)]. *)
Definition make_vtkimg : Py oid :=
  vtkimg <- create "vtk.vtkImageData" [] [] ;;
  call vtkimg "SetDimensions" [ints voldims] ;;
  extent <- lift extent_arg ;;
  call vtkimg "SetExtent" [ints extent] ;;
  spacing <- lift spacing_arg ;;
  call vtkimg "SetSpacing" [floats spacing] ;;
  call vtkimg "SetOrigin" [floats origin_arg] ;;
  ret vtkimg.

(** ** First notebook, second cell: the pipeline *)

Record Pipeline : Type := mkPipeline {
  trivprod : oid;
  renV : oid;
  contour : oid;
  transform : oid;
  contourDisplay : oid;
  light1 : oid;
  light2 : oid;
  light3 : oid
}.

(** A property of a sub-proxy ([transform.Transform.Translate]) is kept
    under its dotted path on the proxy that owns it. *)
Definition nb1_pipeline (vtkimg : oid) (dataName : string) : Py Pipeline :=
  trivprod <- create "TrivialProducer" [] [] ;;
  call trivprod "GetClientSideObject().SetOutput" [VRef vtkimg] ;;
  call trivprod "UpdatePipeline" [] ;;
  callfn "paraview.simple._DisableFirstRenderCameraReset" [] ;;
  renV <- create "CreateView" [VStr "RenderView"] [] ;;
  setattr renV "ViewSize" (VList [VInt 800; VInt 500]) ;;
  setattr renV "CameraPosition" (VList [VInt 0; VInt 0; VFloat 2.5]) ;;
  setattr renV "Background" (VList [VInt 0; VInt 0; VInt 0]) ;;
  contour <- create "Contour" [] [("Input", VRef trivprod)] ;;
  setattr contour "ContourBy" (VList [VStr "POINTS"; VStr dataName]) ;;
  setattr contour "Isosurfaces" (VList [VInt 1627]) ;;
  call contour "UpdatePipeline" [] ;;
  transform <- create "Transform" [] [("Input", VRef contour)] ;;
  setattr transform "Transform.Translate" (VList [VFloat 0.1; VInt 0; VInt 0]) ;;
  setattr transform "Transform.Rotate"
    (VList [VFloat (-90); VFloat (-180); VFloat (-180)]) ;;
  call transform "UpdatePipeline" [] ;;
  contourDisplay <- create "Show" [VRef transform; VRef renV] [] ;;
  setattr contourDisplay "Representation" (VStr "Surface") ;;
  callfn "ColorBy" [VRef contourDisplay; VNone] ;;
  setattr contourDisplay "AmbientColor" (VList [VInt 1; VInt 1; VInt 1]) ;;
  setattr contourDisplay "DiffuseColor" (VList [VInt 1; VInt 1; VInt 1]) ;;
  light1 <- create "AddLight" [] [("view", VRef renV)] ;;
  light2 <- create "AddLight" [] [("view", VRef renV)] ;;
  light3 <- create "AddLight" [] [("view", VRef renV)] ;;
  setattr light1 "Enable" (VInt 0) ;;
  setattr light2 "Enable" (VInt 0) ;;
  setattr light3 "Enable" (VInt 0) ;;
  ret (mkPipeline trivprod renV contour transform contourDisplay
         light1 light2 light3).

(** ** First notebook: the start of the lighting cell, down to [iso(1627)] *)

Definition nb1_lighting (g : Pipeline) : Py unit :=
  setattr (renV g) "UseLight" (VBool false) ;;
  setattr (light1 g) "Enable" (VInt 1) ;;
  setattr (light2 g) "Enable" (VInt 1) ;;
  setattr (light3 g) "Enable" (VInt 1) ;;
  setattr (light1 g) "Type" (VStr "Directional") ;;
  setattr (light2 g) "Type" (VStr "Directional") ;;
  setattr (light3 g) "Type" (VStr "Positional") ;;
  setattr (light3 g) "ConeAngle" (VFloat 0) ;;
  iso (contour g) (VInt 1627) ;;
  ret tt.

(** ** First notebook, last cell: the metal skull *)

Definition nb1_metal (g : Pipeline) : Py unit :=
  setattr (contourDisplay g) "OSPRayMaterial" (VStr "Metal") ;;
  setattr (light1 g) "Type" (VStr "Positional") ;;
  setattr (light2 g) "Type" (VStr "Positional") ;;
  setattr (light1 g) "ConeAngle" (VFloat 0) ;;
  setattr (light2 g) "ConeAngle" (VFloat 0) ;;
  setattr (light3 g) "Type" (VStr "Directional") ;;
  setPtLight (light1 g) (VFloat (-0.12)) (VFloat 0.09) (VFloat 0.24)
    (lit "#ff0000") (VFloat 0.891) ;;
  setPtLight (light2 g) (VFloat 0.12) (VFloat 0.09) (VFloat 0.24)
    (lit "#ff0000") (VFloat 0.891) ;;
  setDirLight (light3 g) (Fin 43.6) (Fin 26.9) (lit "#ffffff") (VFloat 10) ;;
  ret tt.

(** ** Second notebook, last cell: the wavelet contour *)

Definition nb2_wavelet_view : Py oid :=
  renv2 <- create "CreateView" [VStr "RenderView"] [] ;;
  wavelet <- create "Wavelet" [] [] ;;
  contour <- create "Contour" [] [("Input", VRef wavelet)] ;;
  setattr contour "ContourBy" (VList [VStr "POINTS"; VStr "RTData"]) ;;
  setattr contour "Isosurfaces" (VList [VInt 157]) ;;
  create "Show" [VRef contour; VRef renv2] [] ;;
  create "PVDisplay" [VRef renv2] [].

(** ** Second notebook: the shrink callback *)

Section ShrinkCallback.

(** The global [shrink] the callback [setShrink] refers to. *)
Variable shrink : oid.

(** [setShrink(factor)] *)
Definition setShrink (factor : pyval) : Py pyval :=
  setattr shrink "ShrinkFactor" factor ;;
  call shrink "UpdatePipeline" [] ;;
  ret VNone.

End ShrinkCallback.

(** ** First notebook: the wiring of the light widgets *)

(** [zip(names, values)] stops at the shorter list. *)
Definition zip {A B : Type} (xs : list A) (ys : list B) : list (A * B) :=
  combine xs ys.

(** [dict(pairs)]: the pairs are entered from left to right, so a later
    pair replaces an earlier one with the same key. *)
Definition dict {V : Type} (kvs : list (string * V)) : gmap string V :=
  fold_left (fun m kv => <[fst kv := snd kv]> m) kvs ∅.

Definition dirParams : list string := ["light"; "phi"; "theta"; "col"; "lum"].
Definition ptParams : list string := ["light"; "x"; "y"; "z"; "col"; "lum"].

(** The parameters of [def setDirLight(light, theta, phi, col, lum)] and of
    [def setPtLight(light, x, y, z, col, lum)]. *)
Definition setDirLight_params : list string :=
  ["light"; "theta"; "phi"; "col"; "lum"].
Definition setPtLight_params : list string :=
  ["light"; "x"; "y"; "z"; "col"; "lum"].

(** [dict(zip(dirParams, [fixed(light)] + l))] and
    [dict(zip(ptParams, [fixed(light)] + l))]: the controls handed to
    [interactive_output], over any type of control values. *)
Definition dir_kwargs {V : Type} (light : V) (l : list V) : gmap string V :=
  dict (zip dirParams (light :: l)).
Definition pt_kwargs {V : Type} (light : V) (l : list V) : gmap string V :=
  dict (zip ptParams (light :: l)).

(** A call of [f] with the keyword arguments [kw] unpacked, for a
    function whose parameters are [params] (none has a
    default): the call is made when the keys of [kw] are exactly the
    parameters, with the arguments in the order of [params]; otherwise it
    is a [TypeError], here [None]. *)
Definition bind_kwargs {V : Type} (params : list string) (kw : gmap string V)
  : option (list V) :=
  if decide (dom kw = (list_to_set params : gset string))
  then mapM (fun p => kw !! p) params
  else None.

(** * The vocabulary of the statements *)

(** ** Hexadecimal digits *)

(** The characters [0-9], [a-f] and [A-F]. *)
Definition is_hex_digit (c : ascii) : bool :=
  let n := code c in
  ((48 <=? n) && (n <=? 57)) || ((97 <=? n) && (n <=? 102))
  || ((65 <=? n) && (n <=? 70)).

(** The value of a hexadecimal digit, and of two of them read as a
    two-digit number. *)
Definition hexval (c : ascii) : Z :=
  let n := code c in
  if n <=? 57 then n - 48 else if n <=? 70 then n - 55 else n - 87.

Definition hex_pair (a b : ascii) : Z := 16 * hexval a + hexval b.

Definition all_ascii : list ascii := map ascii_of_nat (seq 0 256).

Definition int16_pair_ok (a b : ascii) : bool :=
  implb (is_hex_digit a && is_hex_digit b)
        match int16 [a; b] with
        | Ok v => (v =? hex_pair a b) && (0 <=? v) && (v <=? 255)
        | Raise _ => false
        end.

(** The value [n / 255] of a colour channel. *)
Definition channel (n : Z) : R := (IZR n / 255)%R.

(** ** Effects of the callbacks and of the cells *)

(** A run [out] from the state [w] assigned exactly [Position := pos],
    [DiffuseColor := col] and [Intensity := lum] on [light], in this order,
    did nothing else and returned [None]. *)
Definition sets_exactly_three (light : oid) (pos col lum : pyval) (w : World)
    (out : World * list event * result pyval) : Prop :=
  result_of out = Ok VNone
  /\ events_of out = [SetAttr light "Position" pos;
                      SetAttr light "DiffuseColor" col;
                      SetAttr light "Intensity" lum]
  /\ props (world_of out) =
     <[(light, "Intensity") := lum]>
       (<[(light, "DiffuseColor") := col]>
          (<[(light, "Position") := pos]> (props w)))
  /\ next (world_of out) = next w.

(** The properties a light callback may touch. *)
Definition light_prop (p : string) : bool :=
  (String.eqb p "Position" || String.eqb p "DiffuseColor"
   || String.eqb p "Intensity")%bool.

(** The values assigned to a property called [Isosurfaces], in program
    order. *)
Definition isosurface_assignments (evs : list event) : list pyval :=
  flat_map (fun e =>
              match e with
              | SetAttr _ p v => if String.eqb p "Isosurfaces" then [v] else []
              | _ => []
              end) evs.

(** A one-element list. *)
Definition one_threshold (v : pyval) : Prop := exists c : pyval, v = VList [c].

(** The number of samples along axis [i] of a VTK extent
    [[x0, x1, y0, y1, z0, z1]] (both ends included). *)
Definition axis_samples (extent : list Z) (i : nat) : option Z :=
  match extent !! (2 * i)%nat, extent !! (2 * i + 1)%nat with
  | Some lo, Some hi => Some (hi - lo + 1)
  | _, _ => None
  end.

(** ** More vocabulary: letter case, short slices, vectors *)

(** The upper-case form of an ASCII letter; other characters are kept. *)
Definition to_upper (c : ascii) : ascii :=
  let n := code c in
  if (97 <=? n) && (n <=? 122) then ascii_of_N (Z.to_N (n - 32)) else c.

Definition all_ascii_ok (P : ascii -> bool) : bool := forallb P all_ascii.

(** What [int] makes of one character and of two characters. *)
Definition int16_in_range (s : pystr) : bool :=
  match int16 s with
  | Ok v => (-15 <=? v) && (v <=? 255)
  | Raise _ => true
  end.

Definition int16_single_ok (a : ascii) : bool :=
  int16_in_range [a]
  && implb (is_hex_digit a)
       match int16 [a] with
       | Ok v => v =? hexval a
       | Raise _ => false
       end.

Definition to_upper_ok (a : ascii) : bool :=
  implb (is_hex_digit a)
        (is_hex_digit (to_upper a) && (hexval (to_upper a) =? hexval a)
         && (0 <=? hexval a) && (hexval a <=? 15)).

Definition hexval_inj_ok (a b : ascii) : bool :=
  implb (is_hex_digit a && is_hex_digit b && (hexval a =? hexval b))
        (code (to_upper a) =? code (to_upper b)).

(** A bound on the size of an angle that keeps [pi * angle] well inside
    the range of the doubles. *)
Definition angle_bound : R := IZR (10 ^ 300).

(** An angle that is infinite, or whose product with pi overflows. *)
Definition out_of_range (t : pyfloat) : Prop :=
  match mul_pi t with
  | Inf _ => True
  | _ => False
  end.

(** The opposite vector. *)
Definition opposite (v : list R) : list R := map Ropp v.

(** The method calls among the events, in program order. *)
Definition calls_of (evs : list event) : list event :=
  flat_map (fun e => match e with Call _ _ _ => [e] | _ => [] end) evs.

(** * Properties *)

(** ** Strings: [strip] and slices *)

Section StripFacts.
Variable chars : pystr.

Lemma lstrip_cons (c : ascii) (s : pystr) :
  mem chars c = true -> lstrip chars (c :: s) = lstrip chars s.
Proof. intros Hc. unfold lstrip. simpl. now rewrite Hc. Qed.

Lemma strip_cons (c : ascii) (s : pystr) :
  mem chars c = true -> strip chars (c :: s) = strip chars s.
Proof. intros Hc. unfold strip. now rewrite lstrip_cons. Qed.

Lemma rstrip_snoc (c : ascii) (s : pystr) :
  mem chars c = true -> rstrip chars (s ++ [c]) = rstrip chars s.
Proof.
  intros Hc. unfold rstrip. rewrite rev_unit. simpl. now rewrite Hc.
Qed.

Lemma strip_snoc (c : ascii) (s : pystr) :
  mem chars c = true -> strip chars (s ++ [c]) = strip chars s.
Proof.
  intros Hc. unfold strip, lstrip.
  induction s as [|a r IH]; simpl.
  - now rewrite Hc.
  - destruct (mem chars a) eqn:Ha.
    + exact IH.
    + change (a :: r ++ [c]) with ((a :: r) ++ [c]).
      now apply rstrip_snoc.
Qed.

(** A string that neither starts nor ends with a stripped character is
    left alone. *)
Lemma strip_id (a : ascii) (m : pystr) (z : ascii) :
  mem chars a = false -> mem chars z = false ->
  strip chars (a :: m ++ [z]) = a :: m ++ [z].
Proof.
  intros Ha Hz. unfold strip, lstrip, rstrip. simpl skip at 2. rewrite Ha.
  change (a :: m ++ [z]) with ((a :: m) ++ [z]).
  rewrite rev_unit. cbn [skip]. rewrite Hz.
  change (rev (z :: rev (a :: m))) with (rev (rev (a :: m)) ++ [z]).
  now rewrite rev_involutive.
Qed.

End StripFacts.

Lemma slice_past_end (i j : nat) (s : pystr) :
  (length s <= i)%nat -> slice i j s = [].
Proof.
  intros Hlen. unfold slice. rewrite skipn_all2 by exact Hlen.
  now destruct (j - i)%nat.
Qed.

(** ** [int]: the only exception is [ValueError] *)

Lemma scan_raises (base : Z) (s : pystr) :
  forall (prev_us : bool) (acc : Z) (e : exn),
    scan base prev_us acc s = Raise e -> e = ValueError.
Proof.
  induction s as [|c r IH]; intros prev_us acc e; simpl.
  - destruct prev_us; congruence.
  - destruct (is_char 95 c).
    + destruct prev_us; [congruence | apply IH].
    + destruct (digit_value c) as [d|].
      * destruct (d <? base); [apply IH | destruct prev_us; congruence].
      * destruct prev_us; congruence.
Qed.

Lemma int16_raises (s : pystr) (e : exn) :
  int16 s = Raise e -> e = ValueError.
Proof.
  unfold int16.
  destruct (match skip isspace s with
            | [] => (1, skip isspace s)
            | c :: r => if is_char 43 c then (1, r)
                        else if is_char 45 c then (-1, r)
                        else (1, skip isspace s)
            end) as [sign s2].
  match goal with |- match ?s3 with _ => _ end = _ -> _ => destruct s3 as [|c r] eqn:E3 end.
  - congruence.
  - destruct (is_char 95 c); [congruence|].
    destruct (scan 16 false 0 (c :: r)) as [[v rest]|e'] eqn:Es; cbn [rbind].
    + destruct (length rest =? length (c :: r))%nat; [congruence|].
      destruct (skip isspace rest); congruence.
    + intros [= <-]. eapply scan_raises, Es.
Qed.

Lemma int16_empty : int16 [] = Raise ValueError.
Proof. reflexivity. Qed.

(** [int] on two-character slices that are not two hexadecimal digits. *)
Example int16_signed : int16 (lit "-f") = Ok (-15).
Proof. reflexivity. Qed.

Example int16_blank : int16 (lit " f") = Ok 15.
Proof. reflexivity. Qed.

Example int16_prefix_only : int16 (lit "0x") = Raise ValueError.
Proof. reflexivity. Qed.

Example int16_underscore : int16 (lit "f_") = Raise ValueError.
Proof. reflexivity. Qed.

Example int16_not_hex : int16 (lit "re") = Raise ValueError.
Proof. reflexivity. Qed.

Example strip_both_ends :
  strip (lit "#") (lit "##a#b###") = lit "a#b".
Proof. reflexivity. Qed.

(** ** Hexadecimal digits *)

Lemma all_ascii_complete (c : ascii) : In c all_ascii.
Proof.
  unfold all_ascii. rewrite <- (ascii_nat_embedding c).
  apply in_map, in_seq. pose proof (nat_ascii_bounded c). lia.
Qed.

Lemma ascii_pairs_check (P : ascii -> ascii -> bool) :
  forallb (fun a => forallb (P a) all_ascii) all_ascii = true ->
  forall a b, P a b = true.
Proof.
  intros H a b.
  pose proof (proj1 (forallb_forall _ _) H a (all_ascii_complete a)) as Ha.
  exact (proj1 (forallb_forall _ _) Ha b (all_ascii_complete b)).
Qed.

(** [int] reads two hexadecimal digits as the number they spell. *)
Lemma int16_hex_pair (a b : ascii) :
  is_hex_digit a = true -> is_hex_digit b = true ->
  int16 [a; b] = Ok (hex_pair a b) /\ 0 <= hex_pair a b <= 255.
Proof.
  intros Ha Hb.
  assert (Hall : forall x y, int16_pair_ok x y = true).
  { apply ascii_pairs_check. vm_compute. reflexivity. }
  specialize (Hall a b). unfold int16_pair_ok in Hall.
  rewrite Ha, Hb in Hall. cbn [andb implb] in Hall.
  destruct (int16 [a; b]) as [v|e]; [|discriminate].
  apply andb_true_iff in Hall as [Hall Hhi].
  apply andb_true_iff in Hall as [Heq Hlo].
  apply Z.eqb_eq in Heq. apply Z.leb_le in Hlo, Hhi. subst v. auto.
Qed.

Lemma hex_digit_not_hash (c : ascii) :
  is_hex_digit c = true -> mem (lit "#") c = false.
Proof.
  unfold is_hex_digit, mem. cbn [lit list_ascii_of_string existsb].
  change (code "#") with 35. intros H. rewrite orb_false_r.
  apply Z.eqb_neq. intros Heq. rewrite <- Heq in H. discriminate H.
Qed.

Lemma hash_is_stripped : mem (lit "#") "#"%char = true.
Proof. reflexivity. Qed.

(** ** [hexToRGB] *)

Lemma channel_range (n : Z) : 0 <= n <= 255 -> (0 <= channel n <= 1)%R.
Proof.
  intros [Hlo Hhi]. unfold channel.
  apply IZR_le in Hlo, Hhi. split.
  - apply Rmult_le_reg_r with 255%R; [lra|].
    unfold Rdiv. rewrite Rmult_assoc, Rinv_l by lra. lra.
  - apply Rmult_le_reg_r with 255%R; [lra|].
    unfold Rdiv. rewrite Rmult_assoc, Rinv_l by lra. lra.
Qed.

(** [hexToRGB] once the string is stripped: the three slices in turn. *)
Lemma hexToRGB_unfold (h : pystr) :
  hexToRGB h =
  let s := strip (lit "#") h in
  rbind (int16 (slice 0 2 s)) (fun r =>
  rbind (int16 (slice 2 4 s)) (fun g =>
  rbind (int16 (slice 4 6 s)) (fun b =>
  Ok [channel r; channel g; channel b]))).
Proof.
  unfold hexToRGB, channel. cbn [list_gen Nat.add].
  destruct (int16 (slice 0 2 _)); cbn [rbind]; [|reflexivity].
  destruct (int16 (slice 2 4 _)); cbn [rbind]; [|reflexivity].
  destruct (int16 (slice 4 6 _)); cbn [rbind]; reflexivity.
Qed.

(** Two strings with the same stripped form have the same colour. *)
Lemma hexToRGB_strip (h h' : pystr) :
  strip (lit "#") h = strip (lit "#") h' -> hexToRGB h = hexToRGB h'.
Proof. intros E. rewrite !hexToRGB_unfold. cbv zeta. now rewrite E. Qed.

Lemma hexToRGB_digits (d1 d2 d3 d4 d5 d6 : ascii) :
  is_hex_digit d1 = true -> is_hex_digit d2 = true ->
  is_hex_digit d3 = true -> is_hex_digit d4 = true ->
  is_hex_digit d5 = true -> is_hex_digit d6 = true ->
  hexToRGB [d1; d2; d3; d4; d5; d6] =
  Ok [channel (hex_pair d1 d2); channel (hex_pair d3 d4); channel (hex_pair d5 d6)].
Proof.
  intros H1 H2 H3 H4 H5 H6. rewrite hexToRGB_unfold. cbv zeta.
  change [d1; d2; d3; d4; d5; d6] with (d1 :: [d2; d3; d4; d5] ++ [d6]).
  rewrite strip_id by now apply hex_digit_not_hash.
  change (slice 0 2 (d1 :: [d2; d3; d4; d5] ++ [d6])) with [d1; d2].
  change (slice 2 4 (d1 :: [d2; d3; d4; d5] ++ [d6])) with [d3; d4].
  change (slice 4 6 (d1 :: [d2; d3; d4; d5] ++ [d6])) with [d5; d6].
  rewrite (proj1 (int16_hex_pair d1 d2 H1 H2)).
  rewrite (proj1 (int16_hex_pair d3 d4 H3 H4)).
  rewrite (proj1 (int16_hex_pair d5 d6 H5 H6)).
  reflexivity.
Qed.

(** C1: for a string made of ['#'] followed by exactly six hexadecimal
    digits, [hexToRGB] returns a list of exactly three numbers: the value
    of digits 1-2 over 255, the value of digits 3-4 over 255 and the value
    of digits 5-6 over 255, each of them in the closed interval [0, 1]. *)
Theorem hexToRGB_hash_six_digits (d1 d2 d3 d4 d5 d6 : ascii) :
  is_hex_digit d1 = true -> is_hex_digit d2 = true ->
  is_hex_digit d3 = true -> is_hex_digit d4 = true ->
  is_hex_digit d5 = true -> is_hex_digit d6 = true ->
  let r := (IZR (hex_pair d1 d2) / 255)%R in
  let g := (IZR (hex_pair d3 d4) / 255)%R in
  let b := (IZR (hex_pair d5 d6) / 255)%R in
  hexToRGB ("#"%char :: [d1; d2; d3; d4; d5; d6]) = Ok [r; g; b]
  /\ (0 <= r <= 1)%R /\ (0 <= g <= 1)%R /\ (0 <= b <= 1)%R.
Proof.
  intros H1 H2 H3 H4 H5 H6 r g b.
  split; [|repeat split].
  - rewrite (hexToRGB_strip _ [d1; d2; d3; d4; d5; d6]).
    + now apply hexToRGB_digits.
    + apply strip_cons, hash_is_stripped.
  - apply (channel_range (hex_pair d1 d2)), int16_hex_pair; assumption.
  - apply (channel_range (hex_pair d1 d2)), int16_hex_pair; assumption.
  - apply (channel_range (hex_pair d3 d4)), int16_hex_pair; assumption.
  - apply (channel_range (hex_pair d3 d4)), int16_hex_pair; assumption.
  - apply (channel_range (hex_pair d5 d6)), int16_hex_pair; assumption.
  - apply (channel_range (hex_pair d5 d6)), int16_hex_pair; assumption.
Qed.

(** The colour [#ff5700] of the first light: 255/255, 87/255 and 0/255. *)
Lemma hexToRGB_hash_six_digits_witness :
  hexToRGB (lit "#ff5700") = Ok [IZR 255 / 255; IZR 87 / 255; IZR 0 / 255]%R
  /\ (0 <= IZR 255 / 255 <= 1)%R /\ (0 <= IZR 87 / 255 <= 1)%R
  /\ (0 <= IZR 0 / 255 <= 1)%R.
Proof.
  exact (hexToRGB_hash_six_digits "f" "f" "5" "7" "0" "0"
           eq_refl eq_refl eq_refl eq_refl eq_refl eq_refl).
Defined.

(** C8: [hexToRGB] does not see ['#'] at either end: for a string [s] of
    six hexadecimal digits, ['#' + s], [s] and [s + '#'] give the same
    colour (and [s] does give one). *)
Theorem hexToRGB_hash_insensitive (s : pystr) :
  length s = 6%nat -> forallb is_hex_digit s = true ->
  hexToRGB ("#"%char :: s) = hexToRGB s
  /\ hexToRGB s = hexToRGB (s ++ ["#"%char])
  /\ exists rgb, hexToRGB s = Ok rgb.
Proof.
  intros Hlen Hhex. split; [|split].
  - apply hexToRGB_strip, strip_cons, hash_is_stripped.
  - symmetry. apply hexToRGB_strip, strip_snoc, hash_is_stripped.
  - destruct s as [|d1 [|d2 [|d3 [|d4 [|d5 [|d6 [|d7 s']]]]]]];
      try discriminate Hlen.
    cbn [forallb] in Hhex.
    repeat match goal with
           | H : _ && _ = true |- _ => apply andb_true_iff in H as [? H]
           end.
    eexists. now apply hexToRGB_digits.
Qed.

Lemma hexToRGB_hash_insensitive_witness :
  hexToRGB (lit "#109ad2") = hexToRGB (lit "109ad2")
  /\ hexToRGB (lit "109ad2") = hexToRGB (lit "109ad2#")
  /\ exists rgb, hexToRGB (lit "109ad2") = Ok rgb.
Proof.
  exact (hexToRGB_hash_insensitive (lit "109ad2") eq_refl eq_refl).
Defined.

(** After the third slice comes up empty, [int] has nothing to read. *)
Lemma hexToRGB_too_short (h : pystr) :
  (length (strip (lit "#") h) <= 4)%nat -> hexToRGB h = Raise ValueError.
Proof.
  intros Hlen.
  rewrite hexToRGB_unfold. cbv zeta.
  rewrite (slice_past_end 4 6) by exact Hlen. rewrite int16_empty.
  destruct (int16 (slice 0 2 _)) as [r|e] eqn:E0; cbn [rbind].
  - destruct (int16 (slice 2 4 _)) as [g|e] eqn:E2; cbn [rbind].
    + reflexivity.
    + now rewrite (int16_raises _ _ E2).
  - now rewrite (int16_raises _ _ E0).
Qed.

(** C9: [hexToRGB] is partial: when the string left after stripping ['#']
    has fewer than five characters, the third slice is empty and the call
    raises [ValueError] instead of returning a colour. *)
Theorem hexToRGB_short_raises (h : pystr) :
  (length (strip (lit "#") h) < 5)%nat ->
  slice 4 6 (strip (lit "#") h) = [] /\ hexToRGB h = Raise ValueError.
Proof.
  intros Hlen. split.
  - apply slice_past_end. lia.
  - apply hexToRGB_too_short. lia.
Qed.

(** A four-digit colour. *)
Lemma hexToRGB_short_raises_witness :
  slice 4 6 (strip (lit "#") (lit "#ff57")) = []
  /\ hexToRGB (lit "#ff57") = Raise ValueError.
Proof.
  apply (hexToRGB_short_raises (lit "#ff57")). vm_compute. lia.
Defined.

(** ** [sphereToCart] *)

Section SphereToCart.
Local Open Scope R_scope.

(** C2: for angles [t] and [p] in degrees, [sphereToCart] returns the
    three-element list [sin p_r * cos t_r; sin t_r; cos p_r * cos t_r],
    where [t_r = pi * t / 180] and [p_r = pi * p / 180]. *)
Theorem sphereToCart_formula (t p : R) :
  sphereToCart t p =
  [sin (PI * p / 180) * cos (PI * t / 180);
   sin (PI * t / 180);
   cos (PI * p / 180) * cos (PI * t / 180)]
  /\ length (sphereToCart t p) = 3%nat.
Proof. split; reflexivity. Qed.

(** C3: the vector returned by [sphereToCart] lies on the unit sphere. *)
Theorem sphereToCart_unit (t p : R) :
  exists x y z, sphereToCart t p = [x; y; z] /\ x * x + y * y + z * z = 1.
Proof.
  unfold sphereToCart. cbv zeta.
  do 3 eexists. split; [reflexivity|].
  pose proof (sin2_cos2 (PI * p / 180)) as Hp.
  pose proof (sin2_cos2 (PI * t / 180)) as Ht.
  unfold Rsqr in Hp, Ht.
  set (sp := sin (PI * p / 180)) in *. set (cp := cos (PI * p / 180)) in *.
  set (st := sin (PI * t / 180)) in *. set (ct := cos (PI * t / 180)) in *.
  replace (sp * ct * (sp * ct) + st * st + cp * ct * (cp * ct))
    with ((sp * sp + cp * cp) * (ct * ct) + st * st) by ring.
  rewrite Hp. lra.
Qed.

End SphereToCart.

(** ** The callbacks on the configuration state *)

Section IsoCallback.
Variable contour : oid.

(** C4: [iso(v)] assigns [[v]] to the property [Isosurfaces] of the
    contour filter, then makes exactly one [UpdatePipeline] call on it; no
    other property of any object changes, no object is created, and the
    call returns [None]. *)
Theorem iso_effect (v : pyval) (w : World) :
  let out := iso contour v w in
  result_of out = Ok VNone
  /\ events_of out = [SetAttr contour "Isosurfaces" (VList [v]);
                      Call contour "UpdatePipeline" []]
  /\ props (world_of out) !! (contour, "Isosurfaces") = Some (VList [v])
  /\ (forall (o : oid) (p : string),
        (o, p) <> (contour, "Isosurfaces") ->
        props (world_of out) !! (o, p) = props w !! (o, p))
  /\ next (world_of out) = next w.
Proof.
  cbv zeta. unfold iso, bind, setattr, call, ret, result_of, events_of, world_of.
  cbn [fst snd props next app].
  repeat split.
  - apply lookup_insert_eq.
  - intros o p Hne. now apply lookup_insert_ne.
Qed.

(** C10: a second [iso(v)] leaves the configuration as the first one left
    it (and returns and calls what the first one did). *)
Theorem iso_idempotent (v : pyval) (w : World) :
  let once := iso contour v w in
  let twice := iso contour v (world_of once) in
  world_of twice = world_of once
  /\ result_of twice = result_of once
  /\ events_of twice = events_of once.
Proof.
  cbv zeta. unfold iso, bind, setattr, call, ret, result_of, events_of, world_of.
  cbn [fst snd props next app].
  repeat split. f_equal. apply insert_insert_eq.
Qed.

End IsoCallback.

(** ** [sphereToCart] on floats *)

Section FloatFacts.
Local Open Scope R_scope.

Lemma pi_double_bounds : 3 < pi_double < 4.
Proof.
  unfold pi_double.
  replace (2 ^ 48)%Z with 281474976710656%Z by reflexivity.
  split.
  - apply Rmult_lt_reg_r with (IZR 281474976710656); [lra|].
    unfold Rdiv. rewrite Rmult_assoc, Rinv_l by lra. lra.
  - apply Rmult_lt_reg_r with (IZR 281474976710656); [lra|].
    unfold Rdiv. rewrite Rmult_assoc, Rinv_l by lra. lra.
Qed.

Lemma float_limit_large : 4 * angle_bound < float_limit.
Proof.
  unfold angle_bound, float_limit.
  rewrite <- mult_IZR. apply IZR_lt. vm_compute. reflexivity.
Qed.

Lemma angle_bound_large : 1 <= angle_bound.
Proof. unfold angle_bound. apply IZR_le. vm_compute. discriminate. Qed.

(** Angles up to [10^300] in size are far from the edge. *)
Lemma no_overflow (x : R) :
  Rabs x <= angle_bound -> overflows (pi_double * x) = false.
Proof.
  intros Hx. unfold overflows.
  destruct (Rle_dec float_limit (Rabs (pi_double * x))) as [H|H]; [|reflexivity].
  exfalso. pose proof pi_double_bounds as [Hlo Hhi].
  pose proof float_limit_large as Hl. pose proof (Rabs_pos x) as Hp.
  rewrite Rabs_mult, (Rabs_pos_eq pi_double) in H by lra. nra.
Qed.

Lemma unit_no_overflow (x y : R) :
  -1 <= x <= 1 -> -1 <= y <= 1 -> overflows (x * y) = false.
Proof.
  intros Hx Hy. unfold overflows.
  destruct (Rle_dec float_limit (Rabs (x * y))) as [H|H]; [|reflexivity].
  exfalso. pose proof float_limit_large as Hl. pose proof angle_bound_large as Hb.
  assert (Rabs (x * y) <= 1).
  { apply Rabs_le. nra. }
  lra.
Qed.

(** On angles in range the interpreter computes the formula. *)
Lemma sphereToCart_float_finite (t p : R) :
  overflows (pi_double * t) = false -> overflows (pi_double * p) = false ->
  sphereToCart_float (Fin t) (Fin p) = Ok (map Fin (sphereToCart t p)).
Proof.
  intros Ht Hp. unfold sphereToCart_float, mul_pi. rewrite Ht, Hp.
  cbn [div_180 py_sin py_cos rbind fmul].
  rewrite !unit_no_overflow by (first [apply SIN_bound | apply COS_bound]).
  reflexivity.
Qed.

Lemma sphereToCart_float_small (t p : R) :
  Rabs t <= angle_bound -> Rabs p <= angle_bound ->
  sphereToCart_float (Fin t) (Fin p) = Ok (map Fin (sphereToCart t p)).
Proof.
  intros Ht Hp. apply sphereToCart_float_finite; now apply no_overflow.
Qed.

(** It raises, and then a [ValueError], exactly when an angle is infinite
    or its product with pi overflows. *)
Lemma sphereToCart_float_raises (t p : pyfloat) :
  (out_of_range t \/ out_of_range p
   <-> sphereToCart_float t p = Raise ValueError)
  /\ (forall e, sphereToCart_float t p = Raise e -> e = ValueError).
Proof.
  unfold out_of_range, sphereToCart_float.
  destruct (mul_pi t) as [a|na|], (mul_pi p) as [b|nb|];
    cbn [div_180 py_sin py_cos rbind]; split;
    try (split; [intros [[]|[]] | discriminate]);
    try (split; [auto | auto]);
    try (intros e [= <-]; reflexivity);
    try discriminate.
Qed.

Lemma float_vals_fin (l : list R) : map float_val (map Fin l) = map VFloat l.
Proof. induction l as [|x l IH]; cbn [map float_val]; [|rewrite IH]; reflexivity. Qed.

Lemma small_angle (x : R) : Rabs x <= 1000 -> Rabs x <= angle_bound.
Proof.
  intros H. apply Rle_trans with 1000; [exact H|].
  unfold angle_bound. apply IZR_le. vm_compute. discriminate.
Qed.

(** An angle of [10^308] degrees: pi times it leaves the double range. *)
Example sphereToCart_float_huge :
  sphereToCart_float (Fin (IZR (10 ^ 308))) (Fin 0) = Raise ValueError.
Proof.
  apply sphereToCart_float_raises. left. unfold out_of_range, mul_pi.
  assert (H : overflows (pi_double * IZR (10 ^ 308)) = true).
  { unfold overflows.
    destruct (Rle_dec float_limit (Rabs (pi_double * IZR (10 ^ 308)))) as [H|H];
      [reflexivity|].
    exfalso. apply H. pose proof pi_double_bounds as [Hlo Hhi].
    assert (Hbig : float_limit <= 3 * IZR (10 ^ 308)).
    { unfold float_limit. rewrite <- mult_IZR. apply IZR_le.
      vm_compute. discriminate. }
    assert (Hpos : 0 < IZR (10 ^ 308)) by (apply IZR_lt; vm_compute; reflexivity).
    rewrite Rabs_pos_eq by nra. nra. }
  now rewrite H.
Qed.

End FloatFacts.

(** ** The light callbacks *)

Lemma sets_exactly_three_frame (light : oid) (pos col lum : pyval) (w : World)
    (out : World * list event * result pyval) :
  sets_exactly_three light pos col lum w out ->
  forall (o : oid) (p : string),
    o <> light \/ light_prop p = false ->
    props (world_of out) !! (o, p) = props w !! (o, p).
Proof.
  intros (_ & _ & Hprops & _) o p Hop. rewrite Hprops.
  assert (Hne : forall q, light_prop q = true -> (light, q) <> (o, p)).
  { intros q Hq [= -> ->]. destruct Hop as [Ho | Hp]; congruence. }
  rewrite !lookup_insert_ne; [reflexivity | apply Hne ..]; reflexivity.
Qed.

Lemma setDirLight_ok (light : oid) (theta phi : pyfloat) (col : pystr)
    (lum : pyval) (pos : list pyfloat) (rgb : list R) (w : World) :
  sphereToCart_float theta phi = Ok pos ->
  hexToRGB col = Ok rgb ->
  sets_exactly_three light (VList (map float_val pos)) (floats rgb) lum w
    (setDirLight light theta phi col lum w).
Proof.
  intros Hpos Hcol.
  unfold sets_exactly_three, setDirLight, bind, setattr, lift, ret,
    result_of, events_of, world_of.
  rewrite Hpos, Hcol. cbn [fst snd props next app]. repeat split.
Qed.

Lemma setPtLight_ok (light : oid) (x y z : pyval) (col : pystr) (lum : pyval)
    (rgb : list R) (w : World) :
  hexToRGB col = Ok rgb ->
  sets_exactly_three light (VList [x; y; z]) (floats rgb) lum w
    (setPtLight light x y z col lum w).
Proof.
  intros Hcol.
  unfold sets_exactly_three, setPtLight, bind, setattr, lift, ret,
    result_of, events_of, world_of.
  rewrite Hcol. cbn [fst snd props next app]. repeat split.
Qed.

(** What the callbacks do on a colour that [hexToRGB] rejects: [Position]
    is already assigned when the exception leaves the callback. *)
Lemma setPtLight_raises (light : oid) (x y z : pyval) (col : pystr) (lum : pyval)
    (e : exn) (w : World) :
  hexToRGB col = Raise e ->
  setPtLight light x y z col lum w =
  (mkWorld (<[(light, "Position") := VList [x; y; z]]> (props w)) (next w),
   [SetAttr light "Position" (VList [x; y; z])], Raise e).
Proof.
  intros Hcol. unfold setPtLight, bind, setattr, lift, ret.
  now rewrite Hcol.
Qed.

Lemma setDirLight_raises (light : oid) (theta phi : pyfloat) (col : pystr)
    (lum : pyval) (pos : list pyfloat) (e : exn) (w : World) :
  sphereToCart_float theta phi = Ok pos ->
  hexToRGB col = Raise e ->
  setDirLight light theta phi col lum w =
  (mkWorld (<[(light, "Position") := VList (map float_val pos)]> (props w))
           (next w),
   [SetAttr light "Position" (VList (map float_val pos))], Raise e).
Proof.
  intros Hpos Hcol. unfold setDirLight, bind, setattr, lift, ret.
  now rewrite Hpos, Hcol.
Qed.

(** What [setDirLight] does when [sphereToCart] raises: nothing is
    assigned. *)
Lemma setDirLight_out_of_range (light : oid) (theta phi : pyfloat) (col : pystr)
    (lum : pyval) (e : exn) (w : World) :
  sphereToCart_float theta phi = Raise e ->
  setDirLight light theta phi col lum w = (w, [], Raise e).
Proof.
  intros Hpos. unfold setDirLight, bind, lift. now rewrite Hpos.
Qed.

(** C5, as stated, fails twice.  On the colour name [red] (not a hex code)
    [setPtLight] assigns [Position] and then raises; on an infinite angle
    [setDirLight] raises inside [sphereToCart] before it assigns anything.
    Whatever values one expects, the three assignments did not happen. *)
Lemma light_callbacks_counterexample :
  ~ (exists c : pyval,
       sets_exactly_three 1%positive
         (VList [VFloat 0; VFloat 0; VFloat 0]) c (VFloat 1)
         (mkWorld ∅ 2%positive)
         (setPtLight 1%positive (VFloat 0) (VFloat 0) (VFloat 0)
            (lit "red") (VFloat 1) (mkWorld ∅ 2%positive)))
  /\ ~ (exists pos c : pyval,
          sets_exactly_three 1%positive pos c (VFloat 1)
            (mkWorld ∅ 2%positive)
            (setDirLight 1%positive (Inf false) (Fin 0)
               (lit "#ff0000") (VFloat 1) (mkWorld ∅ 2%positive))).
Proof.
  split.
  - intros (c & Hres & _).
    rewrite (setPtLight_raises _ _ _ _ (lit "red") _ ValueError) in Hres.
    + discriminate Hres.
    + apply hexToRGB_too_short. vm_compute. lia.
  - intros (pos & c & Hres & _).
    rewrite (setDirLight_out_of_range _ (Inf false) (Fin 0) _ _ ValueError)
      in Hres.
    + discriminate Hres.
    + apply sphereToCart_float_raises. left. exact I.
Qed.

(** C5, amended: whenever [hexToRGB(col)] returns a colour, [setPtLight]
    assigns exactly three properties of the light it is given: [Position]
    (to [[x, y, z]]), [DiffuseColor] (to [hexToRGB(col)]) and [Intensity]
    (to [lum]); so does [setDirLight], with [Position] assigned the result of
    [sphereToCart(theta, phi)], whenever that call returns too (the angles
    are floats, neither infinite nor so large that their product with pi
    overflows).  Every other property of that light and every property of
    any other object is unchanged, and no other call is made. *)
Theorem light_callbacks_effect (light : oid) (theta phi : pyfloat)
    (x y z : pyval) (col : pystr) (lum : pyval) (rgb : list R) (w : World) :
  hexToRGB col = Ok rgb ->
  let dir := setDirLight light theta phi col lum w in
  let pt := setPtLight light x y z col lum w in
  (forall pos : list pyfloat,
      sphereToCart_float theta phi = Ok pos ->
      sets_exactly_three light (VList (map float_val pos)) (floats rgb) lum w dir)
  /\ sets_exactly_three light (VList [x; y; z]) (floats rgb) lum w pt
  /\ (forall (o : oid) (p : string),
        o <> light \/ light_prop p = false ->
        props (world_of dir) !! (o, p) = props w !! (o, p)
        /\ props (world_of pt) !! (o, p) = props w !! (o, p)).
Proof.
  intros Hcol dir pt.
  pose proof (setPtLight_ok light x y z col lum rgb w Hcol) as Hpt.
  split; [|split; [exact Hpt|]].
  - intros pos Hpos. exact (setDirLight_ok light theta phi col lum pos rgb w Hpos Hcol).
  - intros o p Hop. split.
    + subst dir. destruct (sphereToCart_float theta phi) as [pos|e] eqn:Hpos.
      * exact (sets_exactly_three_frame _ _ _ _ _ _
                 (setDirLight_ok light theta phi col lum pos rgb w Hpos Hcol)
                 o p Hop).
      * now rewrite (setDirLight_out_of_range light theta phi col lum e w Hpos).
    + exact (sets_exactly_three_frame _ _ _ _ _ _ Hpt o p Hop).
Qed.

(** The third light of the last cell, used once as a directional and once
    as a point light, in red: at the angles (0, 0) [sphereToCart] returns,
    and [Position] is assigned its three components. *)
Lemma light_callbacks_effect_witness :
  let w := mkWorld ∅ 4%positive in
  let red := floats [channel 255; channel 0; channel 0] in
  let dir := setDirLight 3%positive (Fin 0) (Fin 0) (lit "#ff0000") (VFloat 10) w in
  let pt := setPtLight 3%positive (VFloat 0) (VFloat 0) (VFloat 1)
              (lit "#ff0000") (VFloat 10) w in
  sphereToCart_float (Fin 0) (Fin 0) = Ok (map Fin (sphereToCart 0 0))
  /\ sets_exactly_three 3%positive (floats (sphereToCart 0 0)) red (VFloat 10) w dir
  /\ sets_exactly_three 3%positive (VList [VFloat 0; VFloat 0; VFloat 1]) red
       (VFloat 10) w pt
  /\ (forall (o : oid) (p : string),
        o <> 3%positive \/ light_prop p = false ->
        props (world_of dir) !! (o, p) = props w !! (o, p)
        /\ props (world_of pt) !! (o, p) = props w !! (o, p)).
Proof.
  assert (Hpos : sphereToCart_float (Fin 0) (Fin 0)
                 = Ok (map Fin (sphereToCart 0 0))).
  { apply sphereToCart_float_small; apply small_angle;
      rewrite Rabs_R0; lra. }
  destruct (light_callbacks_effect 3%positive (Fin 0) (Fin 0)
              (VFloat 0) (VFloat 0) (VFloat 1)
              (lit "#ff0000") (VFloat 10) [channel 255; channel 0; channel 0]
              (mkWorld ∅ 4%positive) eq_refl) as (Hdir & Hpt & Hframe).
  split; [exact Hpos|]. split; [exact (Hdir _ Hpos)|].
  split; [exact Hpt | exact Hframe].
Defined.

(** ** The cells *)

(** C6: every assignment of [Isosurfaces] made by the notebooks (the
    pipeline cell, the callback [iso], the [iso(1627)] of the lighting cell
    and the wavelet contour of the second notebook) assigns a one-element
    list: [[1627]], [[v]], [[1627]] and [[157]]. *)
Theorem isosurfaces_one_threshold :
  (forall (vtkimg : oid) (dataName : string) (w : World),
      isosurface_assignments (events_of (nb1_pipeline vtkimg dataName w))
      = [VList [VInt 1627]])
  /\ (forall (c : oid) (v : pyval) (w : World),
        isosurface_assignments (events_of (iso c v w)) = [VList [v]])
  /\ (forall (g : Pipeline) (w : World),
        isosurface_assignments (events_of (nb1_lighting g w))
        = [VList [VInt 1627]])
  /\ (forall w : World,
        isosurface_assignments (events_of (nb2_wavelet_view w))
        = [VList [VInt 157]])
  /\ Forall one_threshold [VList [VInt 1627]; VList [VInt 157]]
  /\ (forall v : pyval, one_threshold (VList [v])).
Proof.
  repeat split.
  - repeat constructor; eexists; reflexivity.
  - intros v. eexists; reflexivity.
Qed.

(** C7: the VTK image is configured consistently with
    [voldims = [256, 256, 113]]: along each axis [i] the extent is
    [0 .. voldims[i]-1], which makes [voldims[i]] samples, the spacing is
    [1/voldims[i]], and the origin is [[-0.5, -0.5, -0.5]]. *)
Theorem vtkimg_configuration :
  voldims = [256; 256; 113]
  /\ exists (extent : list Z) (spacing : list R),
      extent_arg = Ok extent /\ spacing_arg = Ok spacing
      /\ (forall w : World,
            events_of (make_vtkimg w) =
            [Create (next w) "vtk.vtkImageData" [] [];
             Call (next w) "SetDimensions" [ints voldims];
             Call (next w) "SetExtent" [ints extent];
             Call (next w) "SetSpacing" [floats spacing];
             Call (next w) "SetOrigin" [floats [-0.5; -0.5; -0.5]%R]]
            /\ result_of (make_vtkimg w) = Ok (next w))
      /\ (forall i : nat,
            match voldims !! i with
            | Some d =>
                extent !! (2 * i)%nat = Some 0
                /\ extent !! (2 * i + 1)%nat = Some (d - 1)
                /\ axis_samples extent i = Some d
                /\ spacing !! i = Some (1 / IZR d)%R
            | None => (3 <= i)%nat
            end).
Proof.
  split; [reflexivity|].
  exists [0; 255; 0; 255; 0; 112], [1 / IZR 256; 1 / IZR 256; 1 / IZR 113]%R.
  split; [reflexivity|]. split; [reflexivity|]. split.
  - intros w. split; reflexivity.
  - intros [|[|[|i]]]; [repeat split ..|].
    change (voldims !! S (S (S i))) with (@nil Z !! i).
    rewrite lookup_nil. lia.
Qed.

(** Outside hex codes a channel can leave [0, 1]: a sign is read by [int]. *)
Example hexToRGB_signed_slice :
  hexToRGB (lit "#-f0000") = Ok [IZR (-15) / 255; IZR 0 / 255; IZR 0 / 255]%R.
Proof. reflexivity. Qed.

(** * Further properties of the notebook code *)

(** ** [hexToRGB] on arbitrary strings *)

Lemma ascii_check (P : ascii -> bool) :
  all_ascii_ok P = true -> forall a, P a = true.
Proof.
  intros H a.
  exact (proj1 (forallb_forall _ _) H a (all_ascii_complete a)).
Qed.

Lemma int16_single_facts (a : ascii) : int16_single_ok a = true.
Proof. apply ascii_check. vm_compute. reflexivity. Qed.

Lemma int16_hex_single (a : ascii) :
  is_hex_digit a = true -> int16 [a] = Ok (hexval a).
Proof.
  intros Ha. pose proof (int16_single_facts a) as H.
  unfold int16_single_ok in H. rewrite Ha in H.
  apply andb_true_iff in H as [_ H]. cbn [implb] in H.
  destruct (int16 [a]) as [v|e]; [|discriminate].
  apply Z.eqb_eq in H. now subst.
Qed.

(** A slice of at most two characters is read as a number between -15
    (a sign and one digit) and 255 (two digits). *)
Lemma int16_short_range (s : pystr) (v : Z) :
  (length s <= 2)%nat -> int16 s = Ok v -> -15 <= v <= 255.
Proof.
  intros Hlen Hv.
  assert (Hr : int16_in_range s = true).
  { destruct s as [|a [|b [|c s']]].
    - reflexivity.
    - pose proof (int16_single_facts a) as H.
      now apply andb_true_iff in H as [H _].
    - clear Hlen Hv. revert a b. apply ascii_pairs_check. vm_compute. reflexivity.
    - cbn in Hlen. lia. }
  unfold int16_in_range in Hr. rewrite Hv in Hr.
  apply andb_true_iff in Hr as [Hlo Hhi].
  apply Z.leb_le in Hlo, Hhi. lia.
Qed.

Lemma slice_length (i j : nat) (s : pystr) :
  (length (slice i j s) <= j - i)%nat.
Proof. unfold slice. rewrite length_firstn. lia. Qed.

Lemma hexToRGB_raises (h : pystr) (e : exn) :
  hexToRGB h = Raise e -> e = ValueError.
Proof.
  rewrite hexToRGB_unfold. cbv zeta.
  destruct (int16 (slice 0 2 _)) as [r|e0] eqn:E0; cbn [rbind].
  - destruct (int16 (slice 2 4 _)) as [g|e2] eqn:E2; cbn [rbind].
    + destruct (int16 (slice 4 6 _)) as [b|e4] eqn:E4; cbn [rbind].
      * discriminate.
      * intros [= <-]. exact (int16_raises _ _ E4).
    + intros [= <-]. exact (int16_raises _ _ E2).
  - intros [= <-]. exact (int16_raises _ _ E0).
Qed.

(** X1: whenever [hexToRGB] returns, it returns exactly three channels,
    each of the form [k / 255] for an integer [-15 <= k <= 255]; so on any
    input a channel lies between [-15/255] and [1]. *)
Theorem hexToRGB_channels (h : pystr) (rgb : list R) :
  hexToRGB h = Ok rgb ->
  exists r g b : Z,
    rgb = [IZR r / 255; IZR g / 255; IZR b / 255]%R
    /\ -15 <= r <= 255 /\ -15 <= g <= 255 /\ -15 <= b <= 255.
Proof.
  rewrite hexToRGB_unfold. cbv zeta.
  destruct (int16 (slice 0 2 _)) as [r|e0] eqn:E0; cbn [rbind]; [|discriminate].
  destruct (int16 (slice 2 4 _)) as [g|e2] eqn:E2; cbn [rbind]; [|discriminate].
  destruct (int16 (slice 4 6 _)) as [b|e4] eqn:E4; cbn [rbind]; [|discriminate].
  intros [= <-]. exists r, g, b. split; [reflexivity|].
  repeat split;
    first [ eapply (int16_short_range _ _ (slice_length 0 2 _) E0)
          | eapply (int16_short_range _ _ (slice_length 2 4 _) E2)
          | eapply (int16_short_range _ _ (slice_length 4 6 _) E4) ].
Qed.

(** The lower bound is reached: a sign is read by [int]. *)
Lemma hexToRGB_channels_witness :
  exists r g b : Z,
    [IZR (-15) / 255; IZR 0 / 255; IZR 0 / 255]%R
    = [IZR r / 255; IZR g / 255; IZR b / 255]%R
    /\ -15 <= r <= 255 /\ -15 <= g <= 255 /\ -15 <= b <= 255.
Proof.
  apply (hexToRGB_channels (lit "#-f0000")). reflexivity.
Defined.

(** X2: the bound of five characters is sharp: five hexadecimal digits
    are accepted, and the lone fifth digit is read as the blue channel. *)
Theorem hexToRGB_five_digits (d1 d2 d3 d4 d5 : ascii) :
  is_hex_digit d1 = true -> is_hex_digit d2 = true ->
  is_hex_digit d3 = true -> is_hex_digit d4 = true ->
  is_hex_digit d5 = true ->
  hexToRGB ("#"%char :: [d1; d2; d3; d4; d5]) =
  Ok [IZR (hex_pair d1 d2) / 255; IZR (hex_pair d3 d4) / 255;
      IZR (hexval d5) / 255]%R.
Proof.
  intros H1 H2 H3 H4 H5.
  rewrite (hexToRGB_strip _ [d1; d2; d3; d4; d5])
    by apply strip_cons, hash_is_stripped.
  rewrite hexToRGB_unfold. cbv zeta.
  change [d1; d2; d3; d4; d5] with (d1 :: [d2; d3; d4] ++ [d5]).
  rewrite strip_id by now apply hex_digit_not_hash.
  change (slice 0 2 (d1 :: [d2; d3; d4] ++ [d5])) with [d1; d2].
  change (slice 2 4 (d1 :: [d2; d3; d4] ++ [d5])) with [d3; d4].
  change (slice 4 6 (d1 :: [d2; d3; d4] ++ [d5])) with [d5].
  rewrite (proj1 (int16_hex_pair d1 d2 H1 H2)).
  rewrite (proj1 (int16_hex_pair d3 d4 H3 H4)).
  rewrite (int16_hex_single d5 H5).
  reflexivity.
Qed.

Lemma hexToRGB_five_digits_witness :
  hexToRGB (lit "#ff570") =
  Ok [IZR 255 / 255; IZR 87 / 255; IZR 0 / 255]%R.
Proof.
  exact (hexToRGB_five_digits "f" "f" "5" "7" "0"
           eq_refl eq_refl eq_refl eq_refl eq_refl).
Defined.

(** ** [hexToRGB] reads the first six characters only *)

Lemma skip_app_stop (p : ascii -> bool) (u : pystr) (z : ascii) (v : pystr) :
  p z = false -> skip p (u ++ z :: v) = skip p u ++ z :: v.
Proof.
  intros Hz. induction u as [|a u IH]; cbn [skip app].
  - now rewrite Hz.
  - destruct (p a); [exact IH | reflexivity].
Qed.

Lemma strip_keeps_prefix (chars : pystr) (a : ascii) (m : pystr) (z : ascii)
    (t : pystr) :
  mem chars a = false -> mem chars z = false ->
  strip chars ((a :: m ++ [z]) ++ t) = (a :: m ++ [z]) ++ rstrip chars t.
Proof.
  intros Ha Hz. unfold strip, lstrip.
  change ((a :: m ++ [z]) ++ t) with (a :: (m ++ [z]) ++ t) at 1.
  cbn [skip]. rewrite Ha.
  change (a :: (m ++ [z]) ++ t) with (((a :: m) ++ [z]) ++ t).
  unfold rstrip. rewrite rev_app_distr, rev_unit.
  rewrite skip_app_stop by exact Hz.
  rewrite rev_app_distr.
  change (rev (z :: rev (a :: m))) with (rev (rev (a :: m)) ++ [z]).
  now rewrite rev_involutive.
Qed.

Lemma six_hex_digits (s : pystr) :
  length s = 6%nat -> forallb is_hex_digit s = true ->
  exists d1 d2 d3 d4 d5 d6,
    s = [d1; d2; d3; d4; d5; d6]
    /\ is_hex_digit d1 = true /\ is_hex_digit d2 = true
    /\ is_hex_digit d3 = true /\ is_hex_digit d4 = true
    /\ is_hex_digit d5 = true /\ is_hex_digit d6 = true.
Proof.
  intros Hlen Hhex.
  destruct s as [|d1 [|d2 [|d3 [|d4 [|d5 [|d6 [|d7 s']]]]]]];
    try discriminate Hlen.
  cbn [forallb] in Hhex.
  repeat match goal with
         | H : _ && _ = true |- _ => apply andb_true_iff in H as [? H]
         end.
  exists d1, d2, d3, d4, d5, d6. auto 10.
Qed.

(** X3: whatever follows the six digits is ignored: an alpha channel, a
    comment, any text.  [#rrggbb] followed by [t] is the colour [rrggbb]. *)
Theorem hexToRGB_ignores_tail (s t : pystr) :
  length s = 6%nat -> forallb is_hex_digit s = true ->
  hexToRGB ("#"%char :: s ++ t) = hexToRGB s
  /\ hexToRGB (s ++ t) = hexToRGB s.
Proof.
  intros Hlen Hhex.
  destruct (six_hex_digits s Hlen Hhex)
    as (d1 & d2 & d3 & d4 & d5 & d6 & -> & H1 & H2 & H3 & H4 & H5 & H6).
  assert (Htail : hexToRGB ([d1; d2; d3; d4; d5; d6] ++ t)
                  = hexToRGB [d1; d2; d3; d4; d5; d6]).
  { rewrite (hexToRGB_digits d1 d2 d3 d4 d5 d6) by assumption.
    rewrite hexToRGB_unfold. cbv zeta.
    change [d1; d2; d3; d4; d5; d6] with (d1 :: [d2; d3; d4; d5] ++ [d6]).
    rewrite strip_keeps_prefix by now apply hex_digit_not_hash.
    set (X := rstrip (lit "#") t).
    change (slice 0 2 ((d1 :: [d2; d3; d4; d5] ++ [d6]) ++ X)) with [d1; d2].
    change (slice 2 4 ((d1 :: [d2; d3; d4; d5] ++ [d6]) ++ X)) with [d3; d4].
    change (slice 4 6 ((d1 :: [d2; d3; d4; d5] ++ [d6]) ++ X)) with [d5; d6].
    rewrite (proj1 (int16_hex_pair d1 d2 H1 H2)).
    rewrite (proj1 (int16_hex_pair d3 d4 H3 H4)).
    rewrite (proj1 (int16_hex_pair d5 d6 H5 H6)).
    reflexivity. }
  split; [|exact Htail].
  rewrite <- Htail.
  apply hexToRGB_strip.
  change ("#"%char :: [d1; d2; d3; d4; d5; d6] ++ t)
    with ("#"%char :: ([d1; d2; d3; d4; d5; d6] ++ t)).
  apply strip_cons, hash_is_stripped.
Qed.

(** An eight-digit code with an alpha channel. *)
Lemma hexToRGB_ignores_tail_witness :
  hexToRGB ("#"%char :: lit "109ad2" ++ lit "80") = hexToRGB (lit "109ad2")
  /\ hexToRGB (lit "109ad2" ++ lit "80") = hexToRGB (lit "109ad2").
Proof.
  exact (hexToRGB_ignores_tail (lit "109ad2") (lit "80") eq_refl eq_refl).
Defined.

(** ** Letter case *)

Lemma to_upper_facts (a : ascii) :
  is_hex_digit a = true ->
  is_hex_digit (to_upper a) = true /\ hexval (to_upper a) = hexval a
  /\ 0 <= hexval a <= 15.
Proof.
  intros Ha.
  assert (H : to_upper_ok a = true) by (apply ascii_check; vm_compute; reflexivity).
  unfold to_upper_ok in H. rewrite Ha in H. cbn [implb] in H.
  repeat match type of H with
         | _ && _ = true => let H' := fresh in apply andb_true_iff in H as [H H']
         end.
  repeat match goal with
         | X : (_ =? _) = true |- _ => apply Z.eqb_eq in X
         | X : (_ <=? _) = true |- _ => apply Z.leb_le in X
         end.
  auto.
Qed.

Lemma code_inj (a b : ascii) : code a = code b -> a = b.
Proof.
  unfold code. intros H. apply N2Z.inj in H.
  rewrite <- (ascii_N_embedding a), <- (ascii_N_embedding b). now rewrite H.
Qed.

Lemma hexval_case (a b : ascii) :
  is_hex_digit a = true -> is_hex_digit b = true ->
  hexval a = hexval b -> to_upper a = to_upper b.
Proof.
  intros Ha Hb Hv.
  assert (H : forall x y, hexval_inj_ok x y = true).
  { apply ascii_pairs_check. vm_compute. reflexivity. }
  specialize (H a b). unfold hexval_inj_ok in H.
  rewrite Ha, Hb, (proj2 (Z.eqb_eq _ _) Hv) in H. cbn [andb implb] in H.
  apply code_inj. now apply Z.eqb_eq.
Qed.

Lemma hex_pair_case (a b c d : ascii) :
  is_hex_digit a = true -> is_hex_digit b = true ->
  is_hex_digit c = true -> is_hex_digit d = true ->
  (hex_pair a b = hex_pair c d <-> to_upper a = to_upper c /\ to_upper b = to_upper d).
Proof.
  intros Ha Hb Hc Hd.
  destruct (to_upper_facts a Ha) as (_ & Hua & Ra).
  destruct (to_upper_facts b Hb) as (_ & Hub & Rb).
  destruct (to_upper_facts c Hc) as (_ & Huc & Rc).
  destruct (to_upper_facts d Hd) as (_ & Hud & Rd).
  unfold hex_pair. split.
  - intros H. split; apply hexval_case; try assumption; lia.
  - intros [Hac Hbd].
    rewrite <- Hua, <- Hub, <- Huc, <- Hud, Hac, Hbd. reflexivity.
Qed.

Lemma channel_inj (m n : Z) : channel m = channel n -> m = n.
Proof.
  unfold channel, Rdiv. intros H.
  apply Rmult_eq_reg_r in H; [now apply eq_IZR|].
  apply Rinv_neq_0_compat. lra.
Qed.

(** X4: two codes of six hexadecimal digits give the same colour exactly
    when they agree up to the case of the letters: the colour determines
    the code, and upper and lower case are read alike. *)
Theorem hexToRGB_same_colour (s s' : pystr) :
  length s = 6%nat -> forallb is_hex_digit s = true ->
  length s' = 6%nat -> forallb is_hex_digit s' = true ->
  (hexToRGB s = hexToRGB s' <-> map to_upper s = map to_upper s').
Proof.
  intros Hlen Hhex Hlen' Hhex'.
  destruct (six_hex_digits s Hlen Hhex)
    as (d1 & d2 & d3 & d4 & d5 & d6 & -> & H1 & H2 & H3 & H4 & H5 & H6).
  destruct (six_hex_digits s' Hlen' Hhex')
    as (e1 & e2 & e3 & e4 & e5 & e6 & -> & G1 & G2 & G3 & G4 & G5 & G6).
  rewrite !hexToRGB_digits by assumption.
  pose proof (hex_pair_case d1 d2 e1 e2 H1 H2 G1 G2) as P12.
  pose proof (hex_pair_case d3 d4 e3 e4 H3 H4 G3 G4) as P34.
  pose proof (hex_pair_case d5 d6 e5 e6 H5 H6 G5 G6) as P56.
  cbn [map]. split.
  - intros [= E12 E34 E56].
    apply channel_inj in E12, E34, E56.
    apply P12 in E12 as [-> ->]. apply P34 in E34 as [-> ->].
    apply P56 in E56 as [-> ->]. reflexivity.
  - intros [= U1 U2 U3 U4 U5 U6].
    rewrite (proj2 P12 (conj U1 U2)), (proj2 P34 (conj U3 U4)),
      (proj2 P56 (conj U5 U6)).
    reflexivity.
Qed.

Lemma hexToRGB_same_colour_witness :
  hexToRGB (lit "ff57ab") = hexToRGB (lit "FF57aB")
  <-> map to_upper (lit "ff57ab") = map to_upper (lit "FF57aB").
Proof.
  exact (hexToRGB_same_colour (lit "ff57ab") (lit "FF57aB")
           eq_refl eq_refl eq_refl eq_refl).
Defined.

(** ** [sphereToCart]: turns, axes and opposite directions *)

Section SphereToCartMore.
Local Open Scope R_scope.

Lemma deg_full_turn (x : R) :
  sin (PI * (x + 360) / 180) = sin (PI * x / 180)
  /\ cos (PI * (x + 360) / 180) = cos (PI * x / 180).
Proof.
  replace (PI * (x + 360) / 180) with (PI * x / 180 + 2 * PI) by field.
  rewrite sin_plus, cos_plus, sin_2PI, cos_2PI. split; ring.
Qed.

Lemma deg_half_turn (x : R) :
  sin (PI * (x + 180) / 180) = - sin (PI * x / 180)
  /\ cos (PI * (x + 180) / 180) = - cos (PI * x / 180).
Proof.
  replace (PI * (x + 180) / 180) with (PI * x / 180 + PI) by field.
  rewrite sin_plus, cos_plus, sin_PI, cos_PI. split; ring.
Qed.

Lemma deg_neg (x : R) :
  sin (PI * - x / 180) = - sin (PI * x / 180)
  /\ cos (PI * - x / 180) = cos (PI * x / 180).
Proof.
  replace (PI * - x / 180) with (- (PI * x / 180)) by field.
  rewrite sin_neg, cos_neg. split; reflexivity.
Qed.

Lemma deg_quarter : PI * 90 / 180 = PI / 2.
Proof. field. Qed.

Lemma deg_zero : PI * 0 / 180 = 0.
Proof. field. Qed.

(** X5: over the reals, a full turn of either angle changes nothing: the
    ends 0 and 360 of the azimuth slider give the same light position. *)
Theorem sphereToCart_full_turn (t p : R) :
  sphereToCart (t + 360) p = sphereToCart t p
  /\ sphereToCart t (p + 360) = sphereToCart t p.
Proof.
  unfold sphereToCart. cbv zeta.
  destruct (deg_full_turn t) as [-> ->].
  destruct (deg_full_turn p) as [-> ->].
  split; reflexivity.
Qed.

(** X6: over the reals (exact [sin], [cos] and [pi]), the convention of
    the angles: (0, 0) is the +z axis, azimuth 90 at elevation 0 is the +x
    axis, and at elevation 90 or -90 the position is the +y or -y axis
    whatever the azimuth. *)
Theorem sphereToCart_axes (p : R) :
  sphereToCart 0 0 = [0; 0; 1]
  /\ sphereToCart 0 90 = [1; 0; 0]
  /\ sphereToCart 90 p = [0; 1; 0]
  /\ sphereToCart (-90) p = [0; -1; 0].
Proof.
  unfold sphereToCart. cbv zeta.
  assert (Hm : PI * -90 / 180 = - (PI / 2)) by field.
  rewrite Hm, sin_neg, cos_neg, deg_quarter, deg_zero.
  rewrite sin_0, cos_0, sin_PI2, cos_PI2.
  repeat split; f_equal; try ring; f_equal; try ring; f_equal; ring.
Qed.

(** X7: over the reals (exact [sin], [cos] and [pi]), mirroring the
    elevation and turning the azimuth by 180 degrees gives the opposite
    position. *)
Theorem sphereToCart_opposite (t p : R) :
  sphereToCart (- t) (p + 180) = opposite (sphereToCart t p).
Proof.
  unfold sphereToCart, opposite. cbv zeta. cbn [map].
  destruct (deg_neg t) as [-> ->].
  destruct (deg_half_turn p) as [-> ->].
  f_equal; [ring|]. f_equal. f_equal. ring.
Qed.

(** X8: over the reals (exact [sin], [cos], [pi] and square root), on the
    range [-90, 90] of the elevation slider the height [y = sin t_r] alone
    fixes the horizontal radius, [sqrt (1 - y^2)], and the azimuth turns a
    vector of that radius around the y axis, from +z towards +x; the light
    is above the xz plane for a positive elevation and below it for a
    negative one. *)
Theorem sphereToCart_elevation (t p : R) :
  -90 <= t <= 90 ->
  let y := sin (PI * t / 180) in
  sphereToCart t p =
  [sin (PI * p / 180) * sqrt (1 - y * y); y;
   cos (PI * p / 180) * sqrt (1 - y * y)]
  /\ (0 <= t -> 0 <= y)
  /\ (t <= 0 -> y <= 0).
Proof.
  intros [Hlo Hhi] y. subst y.
  pose proof PI_RGT_0 as Hpi.
  assert (Hl : 0 <= PI * (t + 90)) by (apply Rmult_le_pos; lra).
  assert (Hh : 0 <= PI * (90 - t)) by (apply Rmult_le_pos; lra).
  assert (Hc : 0 <= cos (PI * t / 180)) by (apply cos_ge_0; lra).
  assert (Hr : sqrt (1 - sin (PI * t / 180) * sin (PI * t / 180))
               = cos (PI * t / 180)).
  { pose proof (sin2_cos2 (PI * t / 180)) as H. unfold Rsqr in H.
    replace (1 - sin (PI * t / 180) * sin (PI * t / 180))
      with (cos (PI * t / 180) * cos (PI * t / 180)) by lra.
    now apply sqrt_square. }
  rewrite Hr. split; [reflexivity|]. split.
  - intros H0. assert (0 <= PI * t) by (apply Rmult_le_pos; lra).
    apply sin_ge_0; lra.
  - intros H0. assert (0 <= PI * - t) by (apply Rmult_le_pos; lra).
    replace (PI * t / 180) with (- (PI * - t / 180)) by field.
    rewrite sin_neg.
    assert (0 <= sin (PI * - t / 180)) by (apply sin_ge_0; lra).
    lra.
Qed.

Lemma sphereToCart_elevation_witness :
  let y := sin (PI * 36.7 / 180) in
  sphereToCart 36.7 148.9 =
  [sin (PI * 148.9 / 180) * sqrt (1 - y * y); y;
   cos (PI * 148.9 / 180) * sqrt (1 - y * y)]
  /\ (0 <= 36.7 -> 0 <= y)
  /\ (36.7 <= 0 -> y <= 0).
Proof.
  apply (sphereToCart_elevation 36.7 148.9). lra.
Defined.

End SphereToCartMore.

(** ** How the callbacks compose *)

(** Two stores are equal when they answer every lookup alike; the keys of
    the callbacks are told apart by their property names or their objects. *)
Ltac same_store :=
  apply map_eq; intros [? ?]; rewrite ?lookup_insert;
  repeat case_decide; simplify_eq; try reflexivity; try congruence.

Ltac run_callbacks :=
  unfold iso, setShrink, setDirLight, setPtLight, bind, setattr, call, lift, ret,
    world_of, events_of, result_of.

Lemma world_eq (p q : gmap (oid * string) pyval) (n : oid) :
  p = q -> mkWorld p n = mkWorld q n.
Proof. now intros ->. Qed.

(** X9: the last isovalue wins: after [iso(v1)] and then [iso(v2)] the
    configuration is the one [iso(v2)] alone produces. *)
Theorem iso_last_wins (contour : oid) (v1 v2 : pyval) (w : World) :
  world_of (iso contour v2 (world_of (iso contour v1 w)))
  = world_of (iso contour v2 w).
Proof.
  run_callbacks. cbn [fst snd props next]. apply world_eq.
  apply insert_insert_eq.
Qed.

(** X10: the isovalue callback and the light callbacks do not interfere:
    in either order they leave the same configuration, and the light
    callback returns or raises the same — even on the same object, and
    even when the colour is rejected or [sphereToCart] raises. *)
Theorem iso_light_commute (contour light : oid) (v : pyval)
    (theta phi : pyfloat) (x y z : pyval) (col : pystr) (lum : pyval)
    (w : World) :
  world_of (iso contour v (world_of (setDirLight light theta phi col lum w)))
  = world_of (setDirLight light theta phi col lum (world_of (iso contour v w)))
  /\ world_of (iso contour v (world_of (setPtLight light x y z col lum w)))
     = world_of (setPtLight light x y z col lum (world_of (iso contour v w)))
  /\ result_of (setDirLight light theta phi col lum (world_of (iso contour v w)))
     = result_of (setDirLight light theta phi col lum w)
  /\ result_of (setPtLight light x y z col lum (world_of (iso contour v w)))
     = result_of (setPtLight light x y z col lum w).
Proof.
  run_callbacks.
  destruct (sphereToCart_float theta phi) as [pos|e'],
           (hexToRGB col) as [rgb|e]; cbn [fst snd props next];
    (split; [apply world_eq; same_store|]);
    (split; [apply world_eq; same_store|]);
    split; reflexivity.
Qed.

(** X11: a light callback that succeeds overrides whatever an earlier
    callback of either kind did to the same light, whether that one
    succeeded or raised: the configuration is the one the last call alone
    produces.  [setPtLight] succeeds when [hexToRGB] accepts its colour;
    [setDirLight] when, besides, [sphereToCart] returns on its angles. *)
Theorem light_last_wins (light : oid) (theta phi theta' phi' : pyfloat)
    (x y z x' y' z' : pyval) (col col' : pystr) (lum lum' : pyval)
    (rgb : list R) (w : World) :
  hexToRGB col = Ok rgb ->
  let pt := setPtLight light x y z col lum in
  let dir := setDirLight light theta phi col lum in
  let earlier_dir := world_of (setDirLight light theta' phi' col' lum' w) in
  let earlier_pt := world_of (setPtLight light x' y' z' col' lum' w) in
  world_of (pt earlier_dir) = world_of (pt w)
  /\ world_of (pt earlier_pt) = world_of (pt w)
  /\ (forall pos : list pyfloat,
        sphereToCart_float theta phi = Ok pos ->
        world_of (dir earlier_dir) = world_of (dir w)
        /\ world_of (dir earlier_pt) = world_of (dir w)).
Proof.
  intros Hcol. cbv zeta. run_callbacks. rewrite Hcol.
  split; [|split; [|intros pos Hpos; rewrite Hpos; split]];
    destruct (sphereToCart_float theta' phi') as [pos'|e'],
             (hexToRGB col') as [rgb'|e]; cbn [fst snd props next];
    apply world_eq; same_store.
Qed.

Lemma light_last_wins_witness :
  let w := mkWorld ∅ 4%positive in
  let pt := setPtLight 1%positive (VFloat 0) (VFloat 0) (VFloat 1)
              (lit "#ff0000") (VFloat 1) in
  let dir := setDirLight 1%positive (Fin 30) (Fin 60) (lit "#ff0000") (VFloat 1) in
  let earlier_dir :=
    world_of (setDirLight 1%positive (Inf false) NaN (lit "red") (VFloat 2) w) in
  let earlier_pt :=
    world_of (setPtLight 1%positive VNone VNone VNone (lit "red") (VFloat 2) w) in
  sphereToCart_float (Fin 30) (Fin 60) = Ok (map Fin (sphereToCart 30 60))
  /\ world_of (pt earlier_dir) = world_of (pt w)
  /\ world_of (pt earlier_pt) = world_of (pt w)
  /\ world_of (dir earlier_dir) = world_of (dir w)
  /\ world_of (dir earlier_pt) = world_of (dir w).
Proof.
  assert (Hpos : sphereToCart_float (Fin 30) (Fin 60)
                 = Ok (map Fin (sphereToCart 30 60))).
  { apply sphereToCart_float_small; apply small_angle;
      rewrite Rabs_pos_eq; lra. }
  destruct (light_last_wins 1%positive (Fin 30) (Fin 60) (Inf false) NaN
              (VFloat 0) (VFloat 0) (VFloat 1) VNone VNone VNone
              (lit "#ff0000") (lit "red") (VFloat 1) (VFloat 2)
              [channel 255; channel 0; channel 0] (mkWorld ∅ 4%positive)
              eq_refl) as (H1 & H2 & H3).
  split; [exact Hpos|]. split; [exact H1|]. split; [exact H2|].
  exact (H3 _ Hpos).
Defined.

(** X12: what a rejected argument leaves behind.  When [hexToRGB] rejects
    the colour, [setPtLight] raises [ValueError] after a partial update:
    [Position] already holds the new value and every other property,
    [DiffuseColor] and [Intensity] included, keeps the value it had; so does
    [setDirLight] when [sphereToCart] returned on its angles.  When
    [sphereToCart] raises as well, [setDirLight] raises [ValueError] before
    it assigns anything. *)
Theorem light_rejected_colour (light : oid) (theta phi : pyfloat)
    (x y z : pyval) (col : pystr) (lum : pyval) (e : exn) (w : World) :
  hexToRGB col = Raise e ->
  let dir := setDirLight light theta phi col lum w in
  let pt := setPtLight light x y z col lum w in
  (result_of pt = Raise ValueError
   /\ events_of pt = [SetAttr light "Position" (VList [x; y; z])]
   /\ props (world_of pt) !! (light, "Position") = Some (VList [x; y; z])
   /\ (forall (o : oid) (p : string),
         (o, p) <> (light, "Position") ->
         props (world_of pt) !! (o, p) = props w !! (o, p)))
  /\ (forall pos : list pyfloat,
        sphereToCart_float theta phi = Ok pos ->
        result_of dir = Raise ValueError
        /\ events_of dir = [SetAttr light "Position" (VList (map float_val pos))]
        /\ props (world_of dir) !! (light, "Position")
           = Some (VList (map float_val pos))
        /\ (forall (o : oid) (p : string),
              (o, p) <> (light, "Position") ->
              props (world_of dir) !! (o, p) = props w !! (o, p)))
  /\ (forall e' : exn,
        sphereToCart_float theta phi = Raise e' ->
        dir = (w, [], Raise ValueError)).
Proof.
  intros Hcol dir pt. subst dir pt.
  pose proof (hexToRGB_raises col e Hcol) as ->.
  split; [|split].
  - rewrite (setPtLight_raises light x y z col lum ValueError w Hcol).
    unfold result_of, events_of, world_of. cbn [fst snd props].
    repeat split; try apply lookup_insert_eq.
    intros o p Hne. apply lookup_insert_ne. congruence.
  - intros pos Hpos.
    rewrite (setDirLight_raises light theta phi col lum pos ValueError w Hpos Hcol).
    unfold result_of, events_of, world_of. cbn [fst snd props].
    repeat split; try apply lookup_insert_eq.
    intros o p Hne. apply lookup_insert_ne. congruence.
  - intros e' Hpos.
    pose proof (proj2 (sphereToCart_float_raises theta phi) e' Hpos) as ->.
    exact (setDirLight_out_of_range light theta phi col lum ValueError w Hpos).
Qed.

Lemma light_rejected_colour_witness :
  let w := mkWorld ∅ 4%positive in
  let dir := setDirLight 1%positive (Fin 0) (Fin 0) (lit "red") (VFloat 1) w in
  let pt := setPtLight 1%positive (VFloat 0) (VFloat 0) (VFloat 1)
              (lit "red") (VFloat 1) w in
  sphereToCart_float (Fin 0) (Fin 0) = Ok (map Fin (sphereToCart 0 0))
  /\ result_of pt = Raise ValueError
  /\ events_of pt
     = [SetAttr 1%positive "Position" (VList [VFloat 0; VFloat 0; VFloat 1])]
  /\ result_of dir = Raise ValueError
  /\ events_of dir = [SetAttr 1%positive "Position" (floats (sphereToCart 0 0))]
  /\ props (world_of dir) !! (1%positive, "Position")
     = Some (floats (sphereToCart 0 0))
  /\ props (world_of dir) !! (1%positive, "Intensity") = None.
Proof.
  assert (Hpos : sphereToCart_float (Fin 0) (Fin 0)
                 = Ok (map Fin (sphereToCart 0 0))).
  { apply sphereToCart_float_small; apply small_angle;
      rewrite Rabs_R0; lra. }
  assert (Hcol : hexToRGB (lit "red") = Raise ValueError).
  { apply hexToRGB_too_short. vm_compute. lia. }
  destruct (light_rejected_colour 1%positive (Fin 0) (Fin 0)
              (VFloat 0) (VFloat 0) (VFloat 1) (lit "red") (VFloat 1)
              ValueError (mkWorld ∅ 4%positive) Hcol)
    as ((Rpt & Ept & _) & Hdir & _).
  destruct (Hdir _ Hpos) as (Rdir & Edir & Pdir & Fdir).
  split; [exact Hpos|]. split; [exact Rpt|]. split; [exact Ept|].
  split; [exact Rdir|]. split; [exact Edir|]. split; [exact Pdir|].
  rewrite Fdir by discriminate. apply lookup_empty.
Defined.

(** X13: the light callbacks of two different lights can run in either
    order: the configuration they leave is the same, whatever the colours
    and the angles. *)
Theorem lights_commute (l1 l2 : oid) (theta phi : pyfloat) (x y z : pyval)
    (col1 col2 : pystr) (lum1 lum2 : pyval) (w : World) :
  l1 <> l2 ->
  world_of (setPtLight l1 x y z col1 lum1
              (world_of (setDirLight l2 theta phi col2 lum2 w)))
  = world_of (setDirLight l2 theta phi col2 lum2
                (world_of (setPtLight l1 x y z col1 lum1 w))).
Proof.
  intros Hne. run_callbacks.
  destruct (sphereToCart_float theta phi) as [pos|e'],
           (hexToRGB col1) as [rgb1|e1], (hexToRGB col2) as [rgb2|e2];
    cbn [fst snd props next]; apply world_eq; same_store.
Qed.

Lemma lights_commute_witness :
  let w := mkWorld ∅ 4%positive in
  world_of (setPtLight 1%positive (VFloat 0) (VFloat 0) (VFloat 1)
              (lit "#ff0000") (VFloat 1)
              (world_of (setDirLight 3%positive (Fin 43.6) (Fin 26.9)
                           (lit "#ffffff") (VFloat 10) w)))
  = world_of (setDirLight 3%positive (Fin 43.6) (Fin 26.9) (lit "#ffffff")
                (VFloat 10)
                (world_of (setPtLight 1%positive (VFloat 0) (VFloat 0) (VFloat 1)
                             (lit "#ff0000") (VFloat 1) w))).
Proof.
  apply (lights_commute 1%positive 3%positive (Fin 43.6) (Fin 26.9)
           (VFloat 0) (VFloat 0) (VFloat 1) (lit "#ff0000") (lit "#ffffff")
           (VFloat 1) (VFloat 10) (mkWorld ∅ 4%positive)).
  discriminate.
Defined.

(** ** The shrink callback of the second notebook *)

(** X14: [setShrink(factor)] assigns [factor] to the property
    [ShrinkFactor] of the shrink filter and makes one [UpdatePipeline] call
    on it; nothing else changes, [None] is returned, and of two calls in a
    row the last factor wins. *)
Theorem setShrink_effect (shrink : oid) (f f' : pyval) (w : World) :
  let out := setShrink shrink f w in
  result_of out = Ok VNone
  /\ events_of out = [SetAttr shrink "ShrinkFactor" f;
                      Call shrink "UpdatePipeline" []]
  /\ props (world_of out) !! (shrink, "ShrinkFactor") = Some f
  /\ (forall (o : oid) (p : string),
        (o, p) <> (shrink, "ShrinkFactor") ->
        props (world_of out) !! (o, p) = props w !! (o, p))
  /\ next (world_of out) = next w
  /\ world_of (setShrink shrink f (world_of (setShrink shrink f' w)))
     = world_of out.
Proof.
  cbv zeta. run_callbacks. cbn [fst snd props next app].
  split; [reflexivity|]. split; [reflexivity|].
  split; [apply lookup_insert_eq|].
  split; [intros o p Hne; now apply lookup_insert_ne|].
  split; [reflexivity|].
  apply world_eq, insert_insert_eq.
Qed.

(** ** The lighting cell *)

Ltac find_key :=
  repeat (rewrite lookup_insert; case_decide;
          [first [reflexivity | congruence] | try congruence]).

(** X15: whatever was configured before, the lighting cell runs to its end
    and resets the isovalue to [[1627]]; it leaves the three lights
    enabled, the default lights off and the third light positional with a
    cone angle of 0, makes one [UpdatePipeline] call, on the contour, and
    creates no object. *)
Theorem nb1_lighting_resets (g : Pipeline) (w : World) :
  let out := nb1_lighting g w in
  result_of out = Ok tt
  /\ props (world_of out) !! (contour g, "Isosurfaces") = Some (VList [VInt 1627])
  /\ props (world_of out) !! (light1 g, "Enable") = Some (VInt 1)
  /\ props (world_of out) !! (light2 g, "Enable") = Some (VInt 1)
  /\ props (world_of out) !! (light3 g, "Enable") = Some (VInt 1)
  /\ props (world_of out) !! (renV g, "UseLight") = Some (VBool false)
  /\ props (world_of out) !! (light3 g, "Type") = Some (VStr "Positional")
  /\ props (world_of out) !! (light3 g, "ConeAngle") = Some (VFloat 0)
  /\ calls_of (events_of out) = [Call (contour g) "UpdatePipeline" []]
  /\ next (world_of out) = next w.
Proof.
  cbv zeta. unfold nb1_lighting. run_callbacks. cbn [fst snd props next app].
  repeat split; find_key.
Qed.

(** ** The wiring of the light widgets *)

(** X16: the controls of a light are matched to the parameters of its
    callback by name.  For a directional light the first slider (0 to 360)
    is the azimuth [phi] and the second (-90 to 90) the elevation [theta],
    then come the colour and the luminance; for a point light [x], [y],
    [z], the colour and the luminance arrive in the order they are listed.
    Controls beyond the last parameter are dropped by [zip]; with one
    control too few the call cannot be made. *)
Theorem light_wiring (V : Type) (light s1 s2 x y z col lum : V) (more : list V) :
  bind_kwargs setDirLight_params
    (dir_kwargs light (s1 :: s2 :: col :: lum :: more))
  = Some [light; s2; s1; col; lum]
  /\ bind_kwargs setPtLight_params
       (pt_kwargs light (x :: y :: z :: col :: lum :: more))
     = Some [light; x; y; z; col; lum]
  /\ bind_kwargs setDirLight_params (dir_kwargs light [s1; s2; col]) = None
  /\ bind_kwargs setPtLight_params (pt_kwargs light [x; y; z; col]) = None.
Proof.
  repeat split; destruct more; reflexivity.
Qed.

(** ** The last cell of the first notebook *)

Lemma hexToRGB_red :
  hexToRGB (lit "#ff0000") = Ok [channel 255; channel 0; channel 0].
Proof. reflexivity. Qed.

Lemma hexToRGB_white :
  hexToRGB (lit "#ffffff") = Ok [channel 255; channel 255; channel 255].
Proof. reflexivity. Qed.

(** The two callbacks, run on a colour that [hexToRGB] accepts. *)
Lemma setPtLight_run (light : oid) (x y z : pyval) (col : pystr) (lum : pyval)
    (rgb : list R) (w : World) :
  hexToRGB col = Ok rgb ->
  setPtLight light x y z col lum w =
  (mkWorld (<[(light, "Intensity") := lum]>
              (<[(light, "DiffuseColor") := floats rgb]>
                 (<[(light, "Position") := VList [x; y; z]]> (props w))))
           (next w),
   [SetAttr light "Position" (VList [x; y; z]);
    SetAttr light "DiffuseColor" (floats rgb);
    SetAttr light "Intensity" lum], Ok VNone).
Proof. intros H. unfold setPtLight, bind, setattr, lift, ret. now rewrite H. Qed.

Lemma setDirLight_run (light : oid) (theta phi : R) (col : pystr) (lum : pyval)
    (rgb : list R) (w : World) :
  (Rabs theta <= angle_bound)%R -> (Rabs phi <= angle_bound)%R ->
  hexToRGB col = Ok rgb ->
  setDirLight light (Fin theta) (Fin phi) col lum w =
  (mkWorld (<[(light, "Intensity") := lum]>
              (<[(light, "DiffuseColor") := floats rgb]>
                 (<[(light, "Position") := floats (sphereToCart theta phi)]>
                    (props w))))
           (next w),
   [SetAttr light "Position" (floats (sphereToCart theta phi));
    SetAttr light "DiffuseColor" (floats rgb);
    SetAttr light "Intensity" lum], Ok VNone).
Proof.
  intros Ht Hp H. unfold setDirLight, bind, setattr, lift, ret.
  rewrite (sphereToCart_float_small theta phi Ht Hp), H, float_vals_fin.
  reflexivity.
Qed.

Lemma last_cell_angles :
  (Rabs 43.6 <= angle_bound /\ Rabs 26.9 <= angle_bound)%R.
Proof. split; apply small_angle; rewrite Rabs_pos_eq; lra. Qed.

(** X17: when the three lights are three different objects, the last cell
    runs to its end and leaves lights 1 and 2 as red point lights at
    (-0.12, 0.09, 0.24) and (0.12, 0.09, 0.24) with intensity 0.891, and
    light 3 as a white directional light of intensity 10 placed at
    [sphereToCart(43.6, 26.9)]: no call overwrites what another one set. *)
Theorem nb1_metal_lights (g : Pipeline) (w : World) :
  light1 g <> light2 g -> light1 g <> light3 g -> light2 g <> light3 g ->
  let out := nb1_metal g w in
  let red := floats [channel 255; channel 0; channel 0] in
  let white := floats [channel 255; channel 255; channel 255] in
  let at_ o p := props (world_of out) !! (o, p) in
  result_of out = Ok tt
  /\ at_ (light1 g) "Position"
     = Some (VList [VFloat (-0.12); VFloat 0.09; VFloat 0.24])
  /\ at_ (light2 g) "Position"
     = Some (VList [VFloat 0.12; VFloat 0.09; VFloat 0.24])
  /\ at_ (light3 g) "Position" = Some (floats (sphereToCart 43.6 26.9))
  /\ at_ (light1 g) "DiffuseColor" = Some red
  /\ at_ (light2 g) "DiffuseColor" = Some red
  /\ at_ (light3 g) "DiffuseColor" = Some white
  /\ at_ (light1 g) "Intensity" = Some (VFloat 0.891)
  /\ at_ (light2 g) "Intensity" = Some (VFloat 0.891)
  /\ at_ (light3 g) "Intensity" = Some (VFloat 10)
  /\ at_ (light1 g) "Type" = Some (VStr "Positional")
  /\ at_ (light2 g) "Type" = Some (VStr "Positional")
  /\ at_ (light3 g) "Type" = Some (VStr "Directional")
  /\ calls_of (events_of out) = [].
Proof.
  intros H12 H13 H23. cbv zeta.
  pose proof (eq_refl (nb1_metal g w)) as E. unfold nb1_metal at 2 in E.
  do 6 (unfold bind at 1 in E; cbn [setattr] in E).
  unfold bind at 1 in E. erewrite setPtLight_run in E by apply hexToRGB_red.
  unfold bind at 1 in E. erewrite setPtLight_run in E by apply hexToRGB_red.
  unfold bind at 1 in E.
  rewrite (setDirLight_run _ _ _ _ _ _ _ (proj1 last_cell_angles)
             (proj2 last_cell_angles) hexToRGB_white) in E.
  cbn [ret app props next] in E. rewrite E.
  unfold result_of, events_of, world_of. cbn [fst snd props].
  repeat split; find_key.
Qed.

Lemma nb1_metal_lights_witness :
  let g := (mkPipeline 1 2 3 4 5 6 7 8)%positive in
  let out := nb1_metal g (mkWorld ∅ 9%positive) in
  let red := floats [channel 255; channel 0; channel 0] in
  let white := floats [channel 255; channel 255; channel 255] in
  let at_ o p := props (world_of out) !! (o, p) in
  result_of out = Ok tt
  /\ at_ (light1 g) "Position"
     = Some (VList [VFloat (-0.12); VFloat 0.09; VFloat 0.24])
  /\ at_ (light2 g) "Position"
     = Some (VList [VFloat 0.12; VFloat 0.09; VFloat 0.24])
  /\ at_ (light3 g) "Position" = Some (floats (sphereToCart 43.6 26.9))
  /\ at_ (light1 g) "DiffuseColor" = Some red
  /\ at_ (light2 g) "DiffuseColor" = Some red
  /\ at_ (light3 g) "DiffuseColor" = Some white
  /\ at_ (light1 g) "Intensity" = Some (VFloat 0.891)
  /\ at_ (light2 g) "Intensity" = Some (VFloat 0.891)
  /\ at_ (light3 g) "Intensity" = Some (VFloat 10)
  /\ at_ (light1 g) "Type" = Some (VStr "Positional")
  /\ at_ (light2 g) "Type" = Some (VStr "Positional")
  /\ at_ (light3 g) "Type" = Some (VStr "Directional")
  /\ calls_of (events_of out) = [].
Proof.
  apply (nb1_metal_lights (mkPipeline 1 2 3 4 5 6 7 8)%positive
           (mkWorld ∅ 9%positive));
    discriminate.
Defined.

(** ** The pipeline cell *)

(** X18: from any state the pipeline cell runs to its end; the eight
    objects it returns are new and pairwise different (so the three lights
    are three lights), the lights are left disabled and the isovalue is
    [[1627]]; the pipeline is updated three times, upstream first. *)
Theorem nb1_pipeline_objects (vtkimg : oid) (dataName : string) (w : World) :
  let out := nb1_pipeline vtkimg dataName w in
  exists g : Pipeline,
    result_of out = Ok g
    /\ NoDup [trivprod g; renV g; contour g; transform g; contourDisplay g;
              light1 g; light2 g; light3 g]
    /\ Forall (fun o => (next w <= o < next (world_of out))%positive)
         [trivprod g; renV g; contour g; transform g; contourDisplay g;
          light1 g; light2 g; light3 g]
    /\ props (world_of out) !! (light1 g, "Enable") = Some (VInt 0)
    /\ props (world_of out) !! (light2 g, "Enable") = Some (VInt 0)
    /\ props (world_of out) !! (light3 g, "Enable") = Some (VInt 0)
    /\ props (world_of out) !! (contour g, "Isosurfaces")
       = Some (VList [VInt 1627])
    /\ calls_of (events_of out)
       = [Call (trivprod g) "GetClientSideObject().SetOutput" [VRef vtkimg];
          Call (trivprod g) "UpdatePipeline" [];
          Call (contour g) "UpdatePipeline" [];
          Call (transform g) "UpdatePipeline" []].
Proof.
  lazy beta iota zeta delta
    [nb1_pipeline bind create setattr call callfn ret
     result_of events_of world_of fst snd props next app
     calls_of flat_map].
  eexists. split; [reflexivity|].
  cbn [trivprod renV contour transform contourDisplay light1 light2 light3].
  split; [|split].
  - repeat (apply NoDup_cons_2;
            [rewrite ?not_elem_of_cons; repeat split;
             first [lia | apply not_elem_of_nil] |]).
    apply NoDup_nil_2.
  - repeat (apply Forall_cons_2; [lia|]). apply Forall_nil_2.
  - repeat split; find_key.
Qed.
